(** * Portfolio front end: filter, pagination, contact form and date views

    A shallow embedding of the React views of the portfolio site
    (Portfolio.jsx in its category and technology versions, Blog.jsx,
    Contact.jsx, Home.jsx) together with the properties their
    specification states about them.

    Conventions of the embedding.
    - A component's [useState] cells are the fields of a record; an event
      handler is a computation in the monad [M] below, which threads the
      component state and a log of the effects the handler performs
      (requests, console diagnostics, scrolling) and may throw.
    - React applies the state updates of a handler before it delivers the
      next event; a handler therefore reads the state of the render that
      created it, which is the state the computation starts from.
    - An [await] on a request is answered by the network, which is an input
      of the model: a request either rejects or resolves with a body.
    - Values that arrive in the JSON of the API are [jsval]s: the scalars
      of JSON, with numbers restricted to integers.  A record of the API
      ([project], [post], [skill]) has the properties the modelled code
      reads; a property that is expected to hold an array is an array or
      absent ([technologies]), or a [fetched]: an array or a scalar.
      Objects and arrays nested deeper are outside the model.
    - A string is a sequence of UTF-16 code units, carried by a [string]
      in UTF-8 (module [JSString]).
    - A [render] function returns the part of the markup that depends on
      the state: which branch is shown, the filter buttons, the cards with
      the texts computed from the data, the pagination bar, the banners,
      field values and button of the form.  Static markup, images and
      links are left out. *)

From stdpp Require Import base option list strings gmap.
From Stdlib Require Import ZArith Lia Ascii Sorted.

Local Open Scope string_scope.
Local Open Scope Z_scope.
Local Open Scope list_scope.

(** ** JavaScript values *)

Module JS.

(** Scalars of a JSON document, and [undefined] for an absent property. *)
Inductive jsval : Type :=
  | JUndefined
  | JNull
  | JBool (b : bool)
  | JNum (n : Z)
  | JStr (s : string).

#[global] Instance jsval_eq_dec : EqDecision jsval.
Proof. solve_decision. Defined.

(** [v === w].  On the scalars above (no NaN) strict equality and the
    SameValueZero comparison of [Set] and [Array.prototype.includes]
    coincide. *)
Definition strict_eq (v w : jsval) : bool := bool_decide (v = w).

(** [Boolean(v)], the truthiness used by [&&], [||], [?:] and
    [filter(Boolean)]. *)
Definition ToBoolean (v : jsval) : bool :=
  match v with
  | JUndefined | JNull => false
  | JBool b => b
  | JNum n => negb (n =? 0)
  | JStr s => negb (String.eqb s "")
  end.

(** [a || b] *)
Definition or_else (a b : jsval) : jsval := if ToBoolean a then a else b.

(** Exceptions and promise rejections. *)
Inductive error : Type :=
  | TypeError
  | NetworkError (msg : string).

Inductive result (A : Type) : Type :=
  | Ok (a : A)
  | Throw (e : error).
Arguments Ok {A} a.
Arguments Throw {A} e.

#[global] Instance result_ret : MRet result := @Ok.
#[global] Instance result_bind : MBind result := fun A B f r =>
  match r with Ok a => f a | Throw e => Throw e end.

(** [xs.map(f)] where [f] may throw: stops at the first exception. *)
Fixpoint map_result {A B} (f : A → result B) (xs : list A) : result (list B) :=
  match xs with
  | [] => Ok []
  | x :: xs' => y ← f x; ys ← map_result f xs'; Ok (y :: ys)
  end.

(** What a state cell or a response field that is expected to hold an array
    holds: an array, or some other value. *)
Inductive fetched (A : Type) : Type :=
  | Arr (items : list A)
  | NotArr (v : jsval).
Arguments Arr {A} items.
Arguments NotArr {A} v.

(** [new Set(xs)] followed by spreading: a [Set] iterates in insertion
    order, and [add] of a value already present changes nothing. *)
Definition Set_add (seen : list jsval) (v : jsval) : list jsval :=
  if existsb (strict_eq v) seen then seen else seen ++ [v].

Definition Set_of (xs : list jsval) : list jsval := fold_left Set_add xs [].

(** [xs.includes(v)] *)
Definition includes (xs : list jsval) (v : jsval) : bool := existsb (strict_eq v) xs.

(** The distinct values of a list in first-seen order, said directly: keep
    the head, drop its later occurrences, continue. *)
Fixpoint first_seen (xs : list jsval) : list jsval :=
  match xs with
  | [] => []
  | x :: xs' => x :: List.filter (fun y => negb (strict_eq y x)) (first_seen xs')
  end.

End JS.
Import JS.

(** ** Effects of a handler *)

Inductive effect : Type :=
  | HttpGet (url : string)
  | HttpPost (url : string) (body : gmap string string)
  | ConsoleError (msg : string) (e : error)
  | ScrollToTop.

(** A handler over component state [S]: it may update the state, append to
    the effect log, and throw.  The state and the log survive a throw. *)
Definition M (S A : Type) : Type := S → list effect → result A * S * list effect.

#[global] Instance M_ret {S} : MRet (M S) := fun A a s l => (Ok a, s, l).
#[global] Instance M_bind {S} : MBind (M S) := fun A B f m s l =>
  match m s l with
  | (Ok a, s', l') => f a s' l'
  | (Throw e, s', l') => (Throw e, s', l')
  end.

Section Handlers.
Context {S : Type}.

Definition get : M S S := fun s l => (Ok s, s, l).
Definition modify (f : S → S) : M S unit := fun s l => (Ok (), f s, l).
Definition perform (e : effect) : M S unit := fun s l => (Ok (), s, l ++ [e]).
Definition throw {A} (e : error) : M S A := fun s l => (Throw e, s, l).
Definition lift {A} (r : result A) : M S A := fun s l => (r, s, l).

(** [try { body } catch (error) { handler(error) }] *)
Definition try_catch {A} (body : M S A) (handler : error → M S A) : M S A :=
  fun s l =>
    match body s l with
    | (Ok a, s', l') => (Ok a, s', l')
    | (Throw e, s', l') => handler e s' l'
    end.

(** [try { body } finally { final }] *)
Definition try_finally {A} (body : M S A) (final : M S unit) : M S A :=
  fun s l =>
    match body s l with
    | (r, s', l') =>
        match final s' l' with
        | (Ok _, s'', l'') => (r, s'', l'')
        | (Throw e, s'', l'') => (Throw e, s'', l'')
        end
    end.

(** [console.error(msg, error)] *)
Definition console_error (msg : string) (e : error) : M S unit :=
  perform (ConsoleError msg e).
End Handlers.

(** What the network answers to a request: the promise rejects, or resolves
    with a response whose [data] is the parsed body.  [None] is a [data]
    that is [null], the body being the JSON document null: every property
    access on it throws.  Any other body that is not the expected object
    (the empty string that axios hands over for an empty body, a number)
    has no [results]: for a list endpoint it is a [Some] whose [results]
    is [NotArr JUndefined]. *)
Inductive outcome (A : Type) : Type :=
  | Rejected (e : error)
  | Resolved (data : option A).
Arguments Rejected {A} e.
Arguments Resolved {A} data.

(** [await axios.get(url)] answered by [o], followed by [.data]. *)
Definition axios_get {S A} (url : string) (o : outcome A) : M S (option A) :=
  perform (HttpGet url);;
  match o with
  | Rejected e => throw e
  | Resolved d => mret d
  end.

(** Property access [d.field] on a body that may be [null]. *)
Definition prop {S A B} (d : option A) (field : A → B) : M S B :=
  match d with
  | Some a => mret (field a)
  | None => throw TypeError
  end.

(** Body of a list endpoint: [{ results, count }]. *)
Record listBody (A : Type) : Type := {
  results : fetched A;
  count : option Z
}.
Arguments results {A} _.
Arguments count {A} _.

(** ** Dates: [new Date(v)] and [toLocaleDateString('en-US', options)] *)

Module JSDate.

(** What the language leaves to the host: the parser of date strings
    ([Date.parse] accepts the ISO format and whatever else the engine
    chooses to) and the offset of local time from UTC, in milliseconds, at
    a given instant. *)
Record host : Type := {
  Date_parse : string → option Z;
  LocalTZA : Z → Z
}.

(** A time value is a number of milliseconds since the epoch; [None] stands
    for NaN, the time value of an invalid date. *)
Definition TimeClip (t : Z) : option Z :=
  if Z.abs t <=? 8640000000000000 then Some t else None.

(** [new Date(v)]: a string is parsed; any other value is converted with
    ToNumber ([undefined] to NaN, [null] to 0, [false]/[true] to 0/1). *)
Definition new_Date (h : host) (v : jsval) : option Z :=
  match v with
  | JUndefined => None
  | JNull => TimeClip 0
  | JBool b => TimeClip (if b then 1 else 0)
  | JNum n => TimeClip n
  | JStr s => t ← Date_parse h s; TimeClip t
  end.

Definition msPerDay : Z := 86400000.

(** Day number to proleptic Gregorian (year, month 1..12, day 1..31). *)
Definition civil_from_days (days : Z) : Z * Z * Z :=
  let z := days + 719468 in
  let era := z / 146097 in
  let doe := z - era * 146097 in
  let yoe := (doe - doe / 1460 + doe / 36524 - doe / 146096) / 365 in
  let doy := doe - (365 * yoe + yoe / 4 - yoe / 100) in
  let mp := (5 * doy + 2) / 153 in
  let d := doy - (153 * mp + 2) / 5 + 1 in
  let m := if mp <? 10 then mp + 3 else mp - 9 in
  let y := yoe + era * 400 + (if m <=? 2 then 1 else 0) in
  (y, m, d).

Definition days_from_civil (y m d : Z) : Z :=
  let y' := y - (if m <=? 2 then 1 else 0) in
  let era := y' / 400 in
  let yoe := y' - era * 400 in
  let doy := (153 * (if 2 <? m then m - 3 else m + 9) + 2) / 5 + d - 1 in
  let doe := yoe * 365 + yoe / 4 - yoe / 100 + doy in
  era * 146097 + doe - 719468.

Definition month_long (m : Z) : string :=
  match m with
  | 1 => "January" | 2 => "February" | 3 => "March" | 4 => "April"
  | 5 => "May" | 6 => "June" | 7 => "July" | 8 => "August"
  | 9 => "September" | 10 => "October" | 11 => "November"
  | _ => "December"
  end.

(** Decimal digits of a natural number.  A number has no more decimal
    digits than binary ones, which bounds the recursion. *)
Definition digit_char (d : Z) : string :=
  match d with
  | 0 => "0" | 1 => "1" | 2 => "2" | 3 => "3" | 4 => "4"
  | 5 => "5" | 6 => "6" | 7 => "7" | 8 => "8" | _ => "9"
  end.

Fixpoint decimal_fuel (fuel : nat) (n : Z) (acc : string) : string :=
  match fuel with
  | O => acc
  | S fuel' =>
      let acc' := String.append (digit_char (n mod 10)) acc in
      if n <? 10 then acc' else decimal_fuel fuel' (n / 10) acc'
  end.

Definition decimal (n : Z) : string :=
  decimal_fuel (S (Z.to_nat (Z.log2 n))) n "".

(** The year as the formatter prints it: the year of the era, without the
    era's name. *)
Definition year_numeric (y : Z) : string :=
  decimal (if 0 <? y then y else 1 - y).

(** The fields the two views ask for. *)
Inductive date_style : Type :=
  | MonthYear      (* { year: 'numeric', month: 'long' } *)
  | MonthDayYear.  (* { year: 'numeric', month: 'long', day: 'numeric' } *)

(** [date.toLocaleDateString('en-US', style)]: an invalid date prints as
    the words Invalid Date and does not throw; a valid one is shown in
    local time. *)
Definition toLocaleDateString (h : host) (style : date_style) (date : option Z) : string :=
  match date with
  | None => "Invalid Date"
  | Some t =>
      let '(y, m, d) := civil_from_days ((t + LocalTZA h t) / msPerDay) in
      match style with
      | MonthYear => String.append (month_long m) (String.append " " (year_numeric y))
      | MonthDayYear =>
          String.append (month_long m)
            (String.append " " (String.append (decimal d)
               (String.append ", " (year_numeric y))))
      end
  end.

(** A host for examples: UTC, and a parser of the timestamps the API
    sends, [YYYY-MM-DDTHH:mm:ssZ], which rejects every other string. *)
Definition digit_val (c : Ascii.ascii) : option Z :=
  let n := Z.of_N (Ascii.N_of_ascii c) in
  if (48 <=? n) && (n <=? 57) then Some (n - 48) else None.

Fixpoint number_of (s : string) (acc : Z) : option Z :=
  match s with
  | EmptyString => Some acc
  | String c s' => d ← digit_val c; number_of s' (10 * acc + d)
  end.

Definition field (s : string) (from len : nat) : option Z :=
  let f := String.substring from len s in
  if (String.length f =? len)%nat then number_of f 0 else None.

Definition iso_parse (s : string) : option Z :=
  if negb ((String.length s =? 20)%nat
           && String.eqb (String.substring 4 1 s) "-"
           && String.eqb (String.substring 7 1 s) "-"
           && String.eqb (String.substring 10 1 s) "T"
           && String.eqb (String.substring 13 1 s) ":"
           && String.eqb (String.substring 16 1 s) ":"
           && String.eqb (String.substring 19 1 s) "Z")
  then None
  else
    y ← field s 0 4; m ← field s 5 2; d ← field s 8 2;
    hh ← field s 11 2; mm ← field s 14 2; ss ← field s 17 2;
    if (1 <=? m) && (m <=? 12) && (1 <=? d) && (d <=? 31)
       && (hh <=? 23) && (mm <=? 59) && (ss <=? 59)
    then Some (days_from_civil y m d * msPerDay + ((hh * 60 + mm) * 60 + ss) * 1000)
    else None.

Definition utc_host : host := {| Date_parse := iso_parse; LocalTZA := fun _ => 0 |}.

End JSDate.
Import JSDate.

(** ** String helpers of the views *)

Module JSString.

(** A string of the language is a sequence of UTF-16 code units, and its
    [length], [substr], [slice], [split] and [trim] count and cut code
    units.  A [string] of this development carries it in UTF-8, as string
    literals are written.  [units] reads the code units off the bytes: a
    character above U+FFFF gives two of them, a surrogate pair.  Bytes
    that are not UTF-8 occur in no literal and in no JSON document; they
    are read leniently, so that every [string] stands for a string of the
    language. *)
Definition code (c : Ascii.ascii) : Z := Z.of_N (Ascii.N_of_ascii c).
Definition byte (n : Z) : Ascii.ascii := Ascii.ascii_of_N (Z.to_N n).

(** The six bits that a continuation byte carries. *)
Definition low6 (c : Ascii.ascii) : Z := code c mod 64.

Definition unit2 (b0 : Z) (c1 : Ascii.ascii) : Z := (b0 mod 32) * 64 + low6 c1.
Definition unit3 (b0 : Z) (c1 c2 : Ascii.ascii) : Z :=
  (b0 mod 16) * 4096 + low6 c1 * 64 + low6 c2.

(** The code point of a four-byte sequence, less 0x10000: twenty bits, ten
    for each surrogate. *)
Definition point4 (b0 : Z) (c1 c2 c3 : Ascii.ascii) : Z :=
  ((b0 mod 8) * 262144 + low6 c1 * 4096 + low6 c2 * 64 + low6 c3 - 65536)
  mod 1048576.
Definition high_surrogate (v : Z) : Z := 55296 + v / 1024.
Definition low_surrogate (v : Z) : Z := 56320 + v mod 1024.

Fixpoint units (s : string) : list Z :=
  match s with
  | EmptyString => []
  | String c0 s0 =>
      let b0 := code c0 in
      if b0 <? 192 then b0 :: units s0
      else if b0 <? 224 then
        match s0 with
        | String c1 s1 => unit2 b0 c1 :: units s1
        | EmptyString => [b0]
        end
      else if b0 <? 240 then
        match s0 with
        | String c1 (String c2 s2) => unit3 b0 c1 c2 :: units s2
        | _ => b0 :: units s0
        end
      else
        match s0 with
        | String c1 (String c2 (String c3 s3)) =>
            high_surrogate (point4 b0 c1 c2 c3)
            :: low_surrogate (point4 b0 c1 c2 c3) :: units s3
        | _ => b0 :: units s0
        end
  end.

(** A code unit has sixteen bits. *)
Definition valid_unit (u : Z) : Prop := 0 ≤ u < 65536.

Definition is_high (u : Z) : bool := (55296 <=? u) && (u <? 56320).
Definition is_low (u : Z) : bool := (56320 <=? u) && (u <? 57344).

(** The bytes of one code unit, and of a surrogate pair. *)
Definition utf8 (u : Z) : string :=
  if u <? 128 then String (byte u) ""
  else if u <? 2048 then
    String (byte (192 + u / 64)) (String (byte (128 + u mod 64)) "")
  else
    String (byte (224 + u / 4096))
      (String (byte (128 + (u / 64) mod 64)) (String (byte (128 + u mod 64)) "")).

Definition utf8_pair (hi lo : Z) : string :=
  let p := 65536 + (hi - 55296) * 1024 + (lo - 56320) in
  String (byte (240 + p / 262144))
    (String (byte (128 + (p / 4096) mod 64))
       (String (byte (128 + (p / 64) mod 64)) (String (byte (128 + p mod 64)) ""))).

(** The [string] that carries a sequence of code units. *)
Fixpoint of_units (us : list Z) : string :=
  match us with
  | [] => ""
  | u :: rest =>
      match rest with
      | lo :: rest' =>
          if is_high u && is_low lo
          then String.append (utf8_pair u lo) (of_units rest')
          else String.append (utf8 u) (of_units rest)
      | [] => utf8 u
      end
  end.

(** [s.length] *)
Definition str_length (s : string) : nat := length (units s).

(** [s.substr(0, n)] and [s.slice(0, n)] *)
Definition substr0 (n : nat) (s : string) : string := of_units (take n (units s)).

(** The elements of [[...s]]: a string iterates by code points, a surrogate
    pair being one. *)
Fixpoint code_points (us : list Z) : nat :=
  match us with
  | [] => 0
  | u :: rest =>
      match rest with
      | lo :: rest' =>
          if is_high u && is_low lo then S (code_points rest')
          else S (code_points rest)
      | [] => 1
      end
  end.

(** White space and line terminators, as [trim] strips them: TAB, LF, VT,
    FF, CR, the space, the no-break space, U+1680, U+2000 to U+200A,
    U+2028, U+2029, U+202F, U+205F, U+3000 and the byte order mark. *)
Definition is_space (u : Z) : bool :=
  ((9 <=? u) && (u <=? 13)) || (u =? 32) || (u =? 160) || (u =? 5760)
  || ((8192 <=? u) && (u <=? 8202)) || (u =? 8232) || (u =? 8233)
  || (u =? 8239) || (u =? 8287) || (u =? 12288) || (u =? 65279).

Fixpoint trim_start (us : list Z) : list Z :=
  match us with
  | [] => []
  | u :: us' => if is_space u then trim_start us' else us
  end.

Fixpoint trim_end (us : list Z) : list Z :=
  match us with
  | [] => []
  | u :: us' =>
      match trim_end us' with
      | [] => if is_space u then [] else [u]
      | r => u :: r
      end
  end.

(** [s.trim()] *)
Definition trim (s : string) : string :=
  of_units (trim_end (trim_start (units s))).

(** [s.split(sep)] for a separator of one code unit: the pieces between
    its occurrences; a string without any, also the empty one, is one
    piece. *)
Fixpoint split_on (sep : Z) (us : list Z) : list (list Z) :=
  match us with
  | [] => [[]]
  | u :: us' =>
      if u =? sep then [] :: split_on sep us'
      else match split_on sep us' with
           | piece :: rest => (u :: piece) :: rest
           | [] => [[u]]
           end
  end.

(** The code units of [pieces.join(sep)]. *)
Fixpoint join_on (sep : Z) (pieces : list (list Z)) : list Z :=
  match pieces with
  | [] => []
  | piece :: rest =>
      match rest with
      | [] => piece
      | _ => piece ++ sep :: join_on sep rest
      end
  end.

Definition split (sep : Z) (s : string) : list string :=
  map of_units (split_on sep (units s)).

Definition upper (c : Ascii.ascii) : Ascii.ascii :=
  let n := Ascii.N_of_ascii c in
  if ((97 <=? n) && (n <=? 122))%N then Ascii.ascii_of_N (n - 32) else c.

(** [s.charAt(0).toUpperCase() + s.slice(1)], with the upper case of the
    letters a to z; the upper case of other letters is left out. *)
Definition capitalize (s : string) : string :=
  match s with
  | EmptyString => EmptyString
  | String c s' => String (upper c) s'
  end.

End JSString.
Import JSString.

(** The receiver of an array method ([map], [flatMap], [filter]): a value
    that is not an array has no such method, and [undefined]/[null] have no
    properties at all; either way the call throws a TypeError. *)
Definition array_of {A} (x : fetched A) : result (list A) :=
  match x with
  | Arr l => Ok l
  | NotArr _ => Throw TypeError
  end.

(** ** A project, as the API sends it *)

Module Project.
Record project : Type := {
  id : jsval;
  title : jsval;
  category : jsval;                     (* may be null *)
  technologies : option (list jsval);  (* [None]: absent or null *)
  created_at : jsval;
  featured : jsval
}.
End Project.
Abbreviation project := Project.project.

(** ** Portfolio.jsx, filtering by category *)

Module Portfolio.
Import Project.

Record state : Type := {
  projects : fetched project;
  filteredProjects : fetched project;
  selectedCategory : jsval;
  loading : bool
}.

Definition init : state :=
  {| projects := Arr []; filteredProjects := Arr [];
     selectedCategory := JStr "all"; loading := true |}.

Definition setProjects (v : fetched project) (s : state) : state :=
  {| projects := v; filteredProjects := filteredProjects s;
     selectedCategory := selectedCategory s; loading := loading s |}.
Definition setFilteredProjects (v : fetched project) (s : state) : state :=
  {| projects := projects s; filteredProjects := v;
     selectedCategory := selectedCategory s; loading := loading s |}.
Definition setSelectedCategory (v : jsval) (s : state) : state :=
  {| projects := projects s; filteredProjects := filteredProjects s;
     selectedCategory := v; loading := loading s |}.
Definition setLoading (b : bool) (s : state) : state :=
  {| projects := projects s; filteredProjects := filteredProjects s;
     selectedCategory := selectedCategory s; loading := b |}.

Definition url : string := "http://127.0.0.1:8000/api/portfolio/projects/".

(** The effect run once at mount. *)
Definition fetchProjects (o : outcome (listBody project)) : M state unit :=
  try_catch
    (data ← axios_get url o;
     res ← prop data results;
     modify (setProjects res);;
     modify (setFilteredProjects res);;
     modify (setLoading false))
    (fun error =>
       console_error "Error fetching projects:" error;;
       modify (setLoading false)).

(** [['all', ...new Set(projects.map(p => p.category).filter(Boolean))]],
    evaluated at every render. *)
Definition categories (s : state) : result (list jsval) :=
  ps ← array_of (projects s);
  Ok (JStr "all" :: Set_of (List.filter ToBoolean (map category ps))).

Definition filterProjects (key : jsval) : M state unit :=
  modify (setSelectedCategory key);;
  s ← get;
  if strict_eq key (JStr "all") then
    modify (setFilteredProjects (projects s))
  else
    ps ← lift (array_of (projects s));
    modify (setFilteredProjects
              (Arr (List.filter (fun p => strict_eq (category p) key) ps))).

Definition formatDate (h : host) (dateString : jsval) : string :=
  toLocaleDateString h MonthYear (new_Date h dateString).

(** What the component returns. *)
Record button : Type := {
  btn_key : jsval;
  btn_active : bool;
  btn_label : jsval
}.

Record card : Type := {
  card_key : jsval;
  card_category : jsval;
  card_date : string;
  card_tags : list string
}.

Inductive grid : Type :=
  | NoProjects     (* "No projects found for the selected category." *)
  | Cards (cs : list card).

Inductive view : Type :=
  | Loading
  | Page (buttons : list button) (g : grid).

(** [key === 'all' ? 'All Projects'
      : (key && key.charAt(0).toUpperCase() + key.slice(1))] *)
Definition button_label (key : jsval) : result jsval :=
  if strict_eq key (JStr "all") then Ok (JStr "All Projects")
  else if negb (ToBoolean key) then Ok key
  else match key with
       | JStr s => Ok (JStr (capitalize s))
       | _ => Throw TypeError
       end.

Definition render_button (s : state) (key : jsval) : result button :=
  lbl ← button_label key;
  Ok {| btn_key := key; btn_active := strict_eq (selectedCategory s) key;
        btn_label := lbl |}.

(** [tech.trim()] *)
Definition render_tag (tech : jsval) : result string :=
  match tech with
  | JStr s => Ok (trim s)
  | _ => Throw TypeError
  end.

Definition render_card (h : host) (p : project) : result card :=
  tags ← match technologies p with
         | None => Ok []
         | Some ts => map_result render_tag ts
         end;
  Ok {| card_key := id p;
        (* project.category?.name || project.category || 'Uncategorized':
           a scalar has no [name] *)
        card_category := or_else (or_else JUndefined (category p)) (JStr "Uncategorized");
        card_date := formatDate h (created_at p);
        card_tags := tags |}.

(** [filteredProjects.length === 0 ? <no-projects/> : filteredProjects.map(...)] *)
Definition render_grid (h : host) (fp : fetched project) : result grid :=
  match fp with
  | Arr [] => Ok NoProjects
  | Arr ps => cs ← map_result (render_card h) ps; Ok (Cards cs)
  | NotArr (JStr s) => if String.eqb s "" then Ok NoProjects else Throw TypeError
  | NotArr _ => Throw TypeError
  end.

Definition render (h : host) (s : state) : result view :=
  cats ← categories s;
  if loading s then Ok Loading
  else
    bs ← map_result (render_button s) cats;
    g ← render_grid h (filteredProjects s);
    Ok (Page bs g).

(** The view once the list [items] has been fetched. *)
Definition fetched_state (items : list project) : state :=
  {| projects := Arr items; filteredProjects := Arr items;
     selectedCategory := JStr "all"; loading := false |}.

(** The state in which [key] is the active filter and [visible] the shown
    list, everything else as in [s]. *)
Definition after_filter (s : state) (key : jsval) (visible : list project) : state :=
  {| projects := projects s; filteredProjects := Arr visible;
     selectedCategory := key; loading := loading s |}.

End Portfolio.

(** ** Portfolio.jsx version 2.0.0, filtering by technology *)

Module PortfolioTech.
Import Portfolio.

Definition url : string := "http://127.0.0.1:8000/api/v1/portfolio/projects/".

Definition fetchProjects (o : outcome (listBody project)) : M state unit :=
  try_catch
    (data ← axios_get url o;
     res ← prop data results;
     modify (setProjects res);;
     modify (setFilteredProjects res);;
     modify (setLoading false))
    (fun error =>
       console_error "Error fetching projects:" error;;
       modify (setLoading false)).

(** [project.technologies ? project.technologies : []]; an array, also the
    empty one, is truthy. *)
Definition technologies_or_empty (p : project) : list jsval :=
  match Project.technologies p with
  | Some ts => ts
  | None => []
  end.

(** [['all', ...new Set(projects.flatMap(technologies_or_empty))]] *)
Definition technologies (s : state) : result (list jsval) :=
  ps ← array_of (projects s);
  Ok (JStr "all" :: Set_of (flat_map technologies_or_empty ps)).

(** [project.technologies && project.technologies.includes(technology)] *)
Definition uses (technology : jsval) (p : project) : bool :=
  match Project.technologies p with
  | Some ts => includes ts technology
  | None => false
  end.

Definition filterProjects (technology : jsval) : M state unit :=
  modify (setSelectedCategory technology);;
  s ← get;
  if strict_eq technology (JStr "all") then
    modify (setFilteredProjects (projects s))
  else
    ps ← lift (array_of (projects s));
    modify (setFilteredProjects (Arr (List.filter (uses technology) ps))).

Definition formatDate (h : host) (dateString : jsval) : string :=
  toLocaleDateString h MonthYear (new_Date h dateString).

(** [technology === 'all' ? 'All Projects' : technology] *)
Definition render_button (s : state) (technology : jsval) : button :=
  {| btn_key := technology;
     btn_active := strict_eq (selectedCategory s) technology;
     btn_label := if strict_eq technology (JStr "all")
                  then JStr "All Projects" else technology |}.

(** A card shows the first technology, or 'No Technology', and one tag per
    technology as it is. *)
Record card : Type := {
  card_key : jsval;
  card_first : jsval;
  card_date : string;
  card_tags : list jsval
}.

Definition render_card (h : host) (p : project) : card :=
  {| card_key := Project.id p;
     card_first := match Project.technologies p with
                   | Some (t :: _) => t
                   | _ => JStr "No Technology"
                   end;
     card_date := formatDate h (Project.created_at p);
     card_tags := technologies_or_empty p |}.

Inductive grid : Type :=
  | NoProjects     (* "No projects found for the selected technology." *)
  | Cards (cs : list card).

Inductive view : Type :=
  | Loading
  | Page (buttons : list button) (g : grid).

Definition render_grid (h : host) (fp : fetched project) : result grid :=
  match fp with
  | Arr [] => Ok NoProjects
  | Arr ps => Ok (Cards (map (render_card h) ps))
  | NotArr (JStr s) => if String.eqb s "" then Ok NoProjects else Throw TypeError
  | NotArr _ => Throw TypeError
  end.

Definition render (h : host) (s : state) : result view :=
  techs ← technologies s;
  if loading s then Ok Loading
  else
    g ← render_grid h (filteredProjects s);
    Ok (Page (map (render_button s) techs) g).

End PortfolioTech.

(** ** Blog.jsx, the server-paginated list *)

(** [x && <element/>] in JSX: the element for a truthy [x], and [x] itself
    otherwise, for which React shows nothing unless it is the number 0. *)
Inductive slot (A : Type) : Type :=
  | Shown (a : A)
  | Falsy (v : jsval).
Arguments Shown {A} a.
Arguments Falsy {A} v.

(** A post of the blog, with the properties the list view reads for the
    card's key, date, category, excerpt and tags. *)
Record post : Type := {
  post_id : jsval;
  slug : jsval;
  post_title : jsval;
  content : jsval;
  post_created_at : jsval;
  post_category : jsval;
  post_tags : fetched jsval
}.

(** A JavaScript number that is an integer or NaN. *)
Inductive jsnum : Type :=
  | NaN
  | Num (n : Z).

Module Blog.

Record state : Type := {
  posts : fetched post;
  loading : bool;
  currentPage : Z;
  totalPages : jsnum
}.

Definition init : state :=
  {| posts := Arr []; loading := true; currentPage := 1; totalPages := Num 1 |}.

Definition setPosts (v : fetched post) (s : state) : state :=
  {| posts := v; loading := loading s; currentPage := currentPage s;
     totalPages := totalPages s |}.
Definition setLoading (b : bool) (s : state) : state :=
  {| posts := posts s; loading := b; currentPage := currentPage s;
     totalPages := totalPages s |}.
Definition setCurrentPage (n : Z) (s : state) : state :=
  {| posts := posts s; loading := loading s; currentPage := n;
     totalPages := totalPages s |}.
Definition setTotalPages (n : jsnum) (s : state) : state :=
  {| posts := posts s; loading := loading s; currentPage := currentPage s;
     totalPages := n |}.

(** [Math.ceil(count / 10)]; an absent count divides to NaN.  The quotient
    is taken exactly: the least integer not below count / 10. *)
Definition pageSize : Z := 10.

Definition Math_ceil_div (count : option Z) (d : Z) : jsnum :=
  match count with
  | None => NaN
  | Some c => Num (- ((- c) / d))
  end.

Definition number_string (n : Z) : string :=
  if n <? 0 then String.append "-" (decimal (- n)) else decimal n.

(** The documented copy of the file requests the same path under [/api/v1];
    nothing else differs. *)
Definition url (page : Z) : string :=
  String.append "http://127.0.0.1:8000/api/blog/posts/?page=" (number_string page).

(** The effect run at mount and whenever [currentPage] changes. *)
Definition fetchPosts (o : outcome (listBody post)) : M state unit :=
  try_catch
    (s ← get;
     data ← axios_get (url (currentPage s)) o;
     res ← prop data results;
     modify (setPosts res);;
     c ← prop data count;
     modify (setTotalPages (Math_ceil_div c pageSize));;
     modify (setLoading false))
    (fun error =>
       console_error "Error fetching blog posts:" error;;
       modify (setLoading false)).

Definition formatDate (h : host) (dateString : jsval) : string :=
  toLocaleDateString h MonthDayYear (new_Date h dateString).

(** [if (!content || content.length <= maxLength) return content || '';
     return content.substr(0, maxLength) + '...'] *)
Definition truncateContent (content : jsval) (maxLength : nat) : result jsval :=
  if negb (ToBoolean content) then Ok (or_else content (JStr ""))
  else match content with
       | JStr c =>
           if (str_length c <=? maxLength)%nat then Ok content
           else Ok (JStr (String.append (substr0 maxLength c) "..."))
       | _ => Throw TypeError
       end.

Definition handlePageChange (page : Z) : M state unit :=
  modify (setCurrentPage page);;
  perform ScrollToTop.

(** [totalPages > 1] and [currentPage === totalPages]; both are false on NaN. *)
Definition gt_one (n : jsnum) : bool :=
  match n with NaN => false | Num k => 1 <? k end.

Definition is_page (page : Z) (n : jsnum) : bool :=
  match n with NaN => false | Num k => page =? k end.

(** [Array.from({ length: totalPages }, (_, i) => i + 1)] *)
Definition page_numbers (n : jsnum) : list Z :=
  match n with NaN => [] | Num k => seqZ 1 k end.

Record page_button : Type := {
  pb_page : Z;
  pb_active : bool
}.

Record pagination : Type := {
  prev_disabled : bool;
  prev_target : Z;
  numbers : list page_button;
  next_disabled : bool;
  next_target : Z
}.

Record post_card : Type := {
  pc_key : jsval;
  pc_date : string;
  pc_category : jsval;
  pc_excerpt : jsval;
  pc_tags : slot (list jsval)
}.

Inductive listing : Type :=
  | NoPosts      (* "No blog posts found" *)
  | Posts (cards : list post_card) (pager : option pagination).

Inductive view : Type :=
  | Loading
  | Page (l : listing).

(** [tag.name || tag]: [null] and [undefined] have no properties, and a
    scalar has no [name]. *)
Definition tag_label (tag : jsval) : result jsval :=
  match tag with
  | JUndefined | JNull => Throw TypeError
  | _ => Ok tag
  end.

(** [post.tags && post.tags.slice(0, 3).map(tag => tag.name || tag)]: a
    truthy value that is not an array has no [slice], or a [slice] whose
    result has no [map]. *)
Definition render_post_tags (tags : fetched jsval) : result (slot (list jsval)) :=
  match tags with
  | Arr l => labels ← map_result tag_label (take 3 l); Ok (Shown labels)
  | NotArr v => if ToBoolean v then Throw TypeError else Ok (Falsy v)
  end.

Definition render_post (h : host) (p : post) : result post_card :=
  ex ← truncateContent (content p) 150;
  tags ← render_post_tags (post_tags p);
  Ok {| pc_key := post_id p; pc_date := formatDate h (post_created_at p);
        (* post.category?.name || post.category: a scalar has no [name] *)
        pc_category := or_else JUndefined (post_category p);
        pc_excerpt := ex; pc_tags := tags |}.

(** [{totalPages > 1 && (<div className="pagination">...)}] *)
Definition render_pagination (s : state) : option pagination :=
  if gt_one (totalPages s) then
    Some {| prev_disabled := currentPage s =? 1;
            prev_target := currentPage s - 1;
            numbers := map (fun page => {| pb_page := page;
                                           pb_active := currentPage s =? page |})
                           (page_numbers (totalPages s));
            next_disabled := is_page (currentPage s) (totalPages s);
            next_target := currentPage s + 1 |}
  else None.

Definition render (h : host) (s : state) : result view :=
  if loading s then Ok Loading
  else
    match posts s with
    | Arr [] => Ok (Page NoPosts)
    | Arr ps =>
        cards ← map_result (render_post h) ps;
        Ok (Page (Posts cards (render_pagination s)))
    | NotArr (JStr t) => if String.eqb t "" then Ok (Page NoPosts) else Throw TypeError
    | NotArr _ => Throw TypeError
    end.

End Blog.

(** ** Contact.jsx, the submission form *)

Module Contact.

(** The values of [submitStatus] other than [null]. *)
Inductive status : Type := Success | Error.

#[global] Instance status_eq_dec : EqDecision status.
Proof. solve_decision. Defined.

(** [formData] is an object keyed by the inputs' [name] attributes. *)
Record state : Type := {
  formData : gmap string string;
  adminProfile : option (gmap string jsval);
  isSubmitting : bool;
  submitStatus : option status
}.

Definition empty_form : gmap string string :=
  <["name" := ""]> (<["email" := ""]> (<["subject" := ""]> (<["message" := ""]> ∅))).

Definition init : state :=
  {| formData := empty_form; adminProfile := None;
     isSubmitting := false; submitStatus := None |}.

Definition setFormData (v : gmap string string) (s : state) : state :=
  {| formData := v; adminProfile := adminProfile s;
     isSubmitting := isSubmitting s; submitStatus := submitStatus s |}.
Definition setAdminProfile (v : option (gmap string jsval)) (s : state) : state :=
  {| formData := formData s; adminProfile := v;
     isSubmitting := isSubmitting s; submitStatus := submitStatus s |}.
Definition setIsSubmitting (b : bool) (s : state) : state :=
  {| formData := formData s; adminProfile := adminProfile s;
     isSubmitting := b; submitStatus := submitStatus s |}.
Definition setSubmitStatus (v : option status) (s : state) : state :=
  {| formData := formData s; adminProfile := adminProfile s;
     isSubmitting := isSubmitting s; submitStatus := v |}.

Definition profile_url : string := "http://127.0.0.1:8000/api/v1/portfolio/admin-profile/".
Definition messages_url : string := "http://127.0.0.1:8000/api/v1/contact/messages/".

Definition fetchAdminProfile (o : outcome (gmap string jsval)) : M state unit :=
  try_catch
    (data ← axios_get profile_url o;
     modify (setAdminProfile data))
    (fun error => console_error "Error fetching admin profile:" error).

(** [setFormData({ ...formData, [e.target.name]: e.target.value })] *)
Definition handleChange (name value : string) : M state unit :=
  s ← get;
  modify (setFormData (<[name := value]> (formData s))).

(** [handleSubmit] up to its [await]: the request leaves with the field
    values of the render that created the handler. *)
Definition handleSubmit_begin : M state unit :=
  modify (setIsSubmitting true);;
  modify (setSubmitStatus None);;
  s ← get;
  perform (HttpPost messages_url (formData s)).

(** [handleSubmit] from the moment the request settles. *)
Definition handleSubmit_resume (o : outcome unit) : M state unit :=
  try_finally
    (try_catch
       (match o with
        | Rejected e => throw e
        | Resolved _ => mret ()
        end;;
        modify (setSubmitStatus (Some Success));;
        modify (setFormData empty_form))
       (fun error =>
          console_error "Error sending message:" error;;
          modify (setSubmitStatus (Some Error))))
    (modify (setIsSubmitting false)).

(** What the form shows. *)
Record view : Type := {
  success_banner : bool;
  error_banner : bool;
  name_value : option string;
  email_value : option string;
  subject_value : option string;
  message_value : option string;
  submit_disabled : bool;
  submit_label : string
}.

Definition render (s : state) : view :=
  {| success_banner := bool_decide (submitStatus s = Some Success);
     error_banner := bool_decide (submitStatus s = Some Error);
     name_value := formData s !! "name";
     email_value := formData s !! "email";
     subject_value := formData s !! "subject";
     message_value := formData s !! "message";
     submit_disabled := isSubmitting s;
     submit_label := if isSubmitting s then "Sending..." else "Send Message" |}.

(** The page between two events: the component state, the write requests
    that have left and not settled yet, and everything logged so far. *)
Record page : Type := {
  ui : state;
  in_flight : nat;
  log : list effect
}.

Definition start : page := {| ui := init; in_flight := 0%nat; log := [] |}.

Inductive event : Type :=
  | Type_in (name value : string)     (* the user edits the input [name] *)
  | Click_submit                      (* the user activates the submit button *)
  | Settle (o : outcome unit).        (* the oldest request in flight settles *)

Section Browser.
(** The browser's constraint validation of the required fields and of the
    e-mail format, which runs before it dispatches [submit]. *)
Variable valid : gmap string string → bool.

Definition run_handler (h : M state unit) (n : nat) (p : page) : page :=
  let '(_, s, l) := h (ui p) (log p) in
  {| ui := s; in_flight := n; log := l |}.

(** A disabled button dispatches nothing; an enabled one submits the form
    when it validates. *)
Definition step (p : page) (ev : event) : page :=
  match ev with
  | Type_in name value => run_handler (handleChange name value) (in_flight p) p
  | Click_submit =>
      if submit_disabled (render (ui p)) then p
      else if valid (formData (ui p))
           then run_handler handleSubmit_begin (S (in_flight p)) p
           else p
  | Settle o =>
      match in_flight p with
      | O => p
      | S n => run_handler (handleSubmit_resume o) n p
      end
  end.

Definition run (evs : list event) : page := fold_left step evs start.
End Browser.

Definition is_post (e : effect) : bool :=
  match e with HttpPost _ _ => true | _ => false end.

(** The write requests issued so far. *)
Definition writes (p : page) : nat := length (List.filter is_post (log p)).

(** The invariant of the page: a request is in flight exactly while
    [isSubmitting] holds, and then it is the only one. *)
Definition one_in_flight (p : page) : Prop :=
  in_flight p = if isSubmitting (ui p) then 1%nat else 0%nat.

End Contact.

(** ** Home.jsx version 2.0.0, the four reads at mount *)

Record skill : Type := {
  skill_id : jsval;
  skill_name : jsval;
  proficiency : jsval
}.

Module Home.

Record state : Type := {
  skills : fetched skill;
  featuredProjects : fetched project;
  recentPosts : fetched post;
  adminProfile : option (gmap string jsval)
}.

Definition init : state :=
  {| skills := Arr []; featuredProjects := Arr []; recentPosts := Arr [];
     adminProfile := None |}.

Definition setSkills (v : fetched skill) (s : state) : state :=
  {| skills := v; featuredProjects := featuredProjects s;
     recentPosts := recentPosts s; adminProfile := adminProfile s |}.
Definition setFeaturedProjects (v : fetched project) (s : state) : state :=
  {| skills := skills s; featuredProjects := v;
     recentPosts := recentPosts s; adminProfile := adminProfile s |}.
Definition setRecentPosts (v : fetched post) (s : state) : state :=
  {| skills := skills s; featuredProjects := featuredProjects s;
     recentPosts := v; adminProfile := adminProfile s |}.
Definition setAdminProfile (v : option (gmap string jsval)) (s : state) : state :=
  {| skills := skills s; featuredProjects := featuredProjects s;
     recentPosts := recentPosts s; adminProfile := v |}.

Definition profile_url : string := "http://127.0.0.1:8000/api/v1/portfolio/admin-profile/".
Definition skills_url : string := "http://127.0.0.1:8000/api/v1/portfolio/skills/".
Definition projects_url : string := "http://127.0.0.1:8000/api/v1/portfolio/projects/".
Definition posts_url : string := "http://127.0.0.1:8000/api/v1/blog/posts/".

(** What the network answers to each of the four requests. *)
Record network : Type := {
  profile_answer : outcome (gmap string jsval);
  skills_answer : outcome (listBody skill);
  projects_answer : outcome (listBody project);
  posts_answer : outcome (listBody post)
}.

(** [x.slice(0, n)]: arrays and strings have it, nothing else does. *)
Definition slice0 {A} (n : nat) (x : fetched A) : result (fetched A) :=
  match x with
  | Arr l => Ok (Arr (take n l))
  | NotArr (JStr t) => Ok (NotArr (JStr (substr0 n t)))
  | NotArr _ => Throw TypeError
  end.

(** [x.filter(project => project.featured)] *)
Definition filter_featured (x : fetched project) : result (fetched project) :=
  ps ← array_of x;
  Ok (Arr (List.filter (fun p => ToBoolean (Project.featured p)) ps)).

Definition fetchData (net : network) : M state unit :=
  try_catch
    (profileData ← axios_get profile_url (profile_answer net);
     modify (setAdminProfile profileData);;
     skillsData ← axios_get skills_url (skills_answer net);
     skillsResults ← prop skillsData results;
     firstSkills ← lift (slice0 6 skillsResults);
     modify (setSkills firstSkills);;
     projectsData ← axios_get projects_url (projects_answer net);
     projectsResults ← prop projectsData results;
     featuredOnes ← lift (filter_featured projectsResults);
     firstProjects ← lift (slice0 3 featuredOnes);
     modify (setFeaturedProjects firstProjects);;
     postsData ← axios_get posts_url (posts_answer net);
     postsResults ← prop postsData results;
     firstPosts ← lift (slice0 3 postsResults);
     modify (setRecentPosts firstPosts))
    (fun error => console_error "Error fetching data:" error).

(** The requests a log records, in the order they were issued. *)
Definition requests (l : list effect) : list string :=
  omap (fun e => match e with HttpGet u => Some u | _ => None end) l.

End Home.

(** ** BlogPost.jsx, the detail view of one post *)

Module BlogPost.

(** The post object, with the properties the view reads. *)
Record post_detail : Type := {
  d_title : jsval;
  d_category : jsval;
  d_created_at : jsval;
  d_excerpt : jsval;
  d_featured_image : jsval;
  d_content : jsval;
  d_tags : jsval
}.

(** [post] and [error] start as [null]; [error] is only ever set to the
    text 'Post not found'. *)
Record state : Type := {
  post : option post_detail;
  loading : bool;
  error : option string
}.

Definition init : state := {| post := None; loading := true; error := None |}.

Definition setPost (v : option post_detail) (s : state) : state :=
  {| post := v; loading := loading s; error := error s |}.
Definition setLoading (b : bool) (s : state) : state :=
  {| post := post s; loading := b; error := error s |}.
Definition setError (v : option string) (s : state) : state :=
  {| post := post s; loading := loading s; error := v |}.

Definition url (slug : string) : string :=
  String.append "http://127.0.0.1:8000/api/blog/posts/" (String.append slug "/").

(** The effect run at mount and whenever the [slug] of the route changes. *)
Definition fetchPost (slug : string) (o : outcome post_detail) : M state unit :=
  try_catch
    (data ← axios_get (url slug) o;
     modify (setPost data);;
     modify (setLoading false))
    (fun err =>
       console_error "Error fetching blog post:" err;;
       modify (setError (Some "Post not found"));;
       modify (setLoading false)).

Definition formatDate (h : host) (dateString : jsval) : string :=
  toLocaleDateString h MonthDayYear (new_Date h dateString).

(** [s.split(',')]; the comma is the code unit 44. *)
Definition comma : Z := 44.
Definition split_comma (s : string) : list string := split comma s.

(** [post.tags && post.tags.split(',').map(tag => tag.trim())]: no tag
    section for a falsy value, and only a string has [split]. *)
Definition render_tags (tags : jsval) : result (slot (list string)) :=
  if negb (ToBoolean tags) then Ok (Falsy tags)
  else match tags with
       | JStr t => Ok (Shown (map trim (split_comma t)))
       | _ => Throw TypeError
       end.

(** [x && (<element>{x}</element>)] *)
Definition when_truthy (x : jsval) : slot jsval :=
  if ToBoolean x then Shown x else Falsy x.

Record article : Type := {
  a_category : jsval;
  a_date : string;
  a_title : jsval;
  a_excerpt : slot jsval;
  a_image : slot jsval;
  a_body : jsval;
  a_tags : slot (list string)
}.

Inductive view : Type :=
  | Loading      (* "Loading blog post..." *)
  | NotFound     (* "Post Not Found", with the link back to the blog *)
  | Loaded (a : article).

(** [if (loading) ...; if (error || !post) ...; return ...] *)
Definition render (h : host) (s : state) : result view :=
  if loading s then Ok Loading
  else
    match error s, post s with
    | Some _, _ => Ok NotFound
    | None, None => Ok NotFound
    | None, Some p =>
        tags ← render_tags (d_tags p);
        Ok (Loaded {| a_category := d_category p;
                      a_date := formatDate h (d_created_at p);
                      a_title := d_title p;
                      a_excerpt := when_truthy (d_excerpt p);
                      a_image := when_truthy (d_featured_image p);
                      a_body := d_content p;
                      a_tags := tags |})
    end.

(** The commas of a string, and the text with its pieces joined again. *)
Definition commas (s : string) : nat :=
  length (List.filter (Z.eqb comma) (units s)).

Definition join_comma (pieces : list string) : string :=
  String.concat "," pieces.

End BlogPost.

(** ** The contact details and social links of Contact.jsx and Footer.jsx *)

Module Profile.

(** [adminProfile?.name]: [undefined] on a [null] profile and on a profile
    without the property. *)
Definition chain (profile : option (gmap string jsval)) (name : string) : jsval :=
  match profile with
  | None => JUndefined
  | Some m => default JUndefined (m !! name)
  end.

(** Contact.jsx:
    [adminProfile?.name || (adminProfile === null ? 'Loading...' : 'Not available')] *)
Definition detail_text (profile : option (gmap string jsval)) (name : string) : jsval :=
  or_else (chain profile name)
          (match profile with
           | None => JStr "Loading..."
           | Some _ => JStr "Not available"
           end).

(** A social icon of Contact.jsx: [href], [target] and [rel] all follow the
    truthiness of the URL. *)
Record anchor : Type := {
  href : jsval;
  target : string;
  rel : string
}.

Definition social_icon (profile : option (gmap string jsval)) (name : string) : anchor :=
  let u := chain profile name in
  {| href := or_else u (JStr "#");
     target := if ToBoolean u then "_blank" else "_self";
     rel := if ToBoolean u then "noopener noreferrer" else "" |}.

Definition contact_details (profile : option (gmap string jsval)) : list jsval :=
  map (detail_text profile) ["email"; "phone"; "location"].

Definition social_icons (profile : option (gmap string jsval)) : list anchor :=
  map (social_icon profile) ["linkedin_url"; "github_url"; "twitter_url"].

(** The Connect section of Footer.jsx: the loading text, or the three
    link slots (GitHub, LinkedIn, X, each a label with its URL) and whether
    the text "No social links available" is shown. *)
Inductive connect : Type :=
  | LoadingLinks
  | Links (github linkedin twitter : slot (string * jsval)) (none_message : bool).

(** [adminProfile.name && (<a href={adminProfile.name}>label</a>)] *)
Definition footer_link (m : gmap string jsval) (label name : string)
    : slot (string * jsval) :=
  let u := default JUndefined (m !! name) in
  if ToBoolean u then Shown (label, u) else Falsy u.

Definition footer_connect (profile : option (gmap string jsval)) : connect :=
  match profile with
  | None => LoadingLinks
  | Some m =>
      Links (footer_link m "GitHub" "github_url")
            (footer_link m "LinkedIn" "linkedin_url")
            (footer_link m "X" "twitter_url")
            (negb (ToBoolean (default JUndefined (m !! "github_url")))
             && negb (ToBoolean (default JUndefined (m !! "linkedin_url")))
             && negb (ToBoolean (default JUndefined (m !! "twitter_url"))))
  end.

Definition is_shown {A} (x : slot A) : bool :=
  match x with Shown _ => true | Falsy _ => false end.

End Profile.

(** ** Navbar.jsx *)

Module Navbar.

(** [location.pathname === path] *)
Definition isActive (pathname path : string) : bool := String.eqb pathname path.

Definition nav_paths : list string :=
  ["/"; "/about"; "/portfolio"; "/blog"; "/contact"].

(** The five links with their [active] class. *)
Definition nav_links (pathname : string) : list (string * bool) :=
  map (fun path => (path, isActive pathname path)) nav_paths.

End Navbar.

(** ** About.jsx version 2.0.0: all pages of skills, grouped by category *)

Module About.

(** A skill, with the properties the view reads. *)
Record skill : Type := {
  id : jsval;
  name : jsval;
  category_display : jsval;
  proficiency : jsval;
  proficiency_display : jsval
}.

Record state : Type := {
  skills : fetched skill
}.

Definition init : state := {| skills := Arr [] |}.

Definition setSkills (v : fetched skill) (s : state) : state := {| skills := v |}.

(** One page of the skills endpoint: [{ results, next }], where [next] is
    the URL of the following page or [null]. *)
Record page : Type := {
  results : fetched skill;
  next : option string
}.

Definition first_url : string :=
  "http://127.0.0.1:8000/api/v1/portfolio/skills/?page_size=100".

(** [while (nextUrl)]: a URL that is neither [null] nor empty. *)
Definition truthy_url (nextUrl : option string) : option string :=
  match nextUrl with
  | Some u => if String.eqb u "" then None else Some u
  | None => None
  end.

(** A character of a spread string is a primitive: every property the view
    reads on it is [undefined]. *)
Definition character : skill :=
  {| id := JUndefined; name := JUndefined; category_display := JUndefined;
     proficiency := JUndefined; proficiency_display := JUndefined |}.

(** [...x] in an array literal: an array gives its elements, a string its
    characters, and nothing else is iterable. *)
Definition spread (x : fetched skill) : result (list skill) :=
  match x with
  | Arr l => Ok l
  | NotArr (JStr t) => Ok (replicate (code_points (units t)) character)
  | NotArr _ => Throw TypeError
  end.

(** A handler that may still be running when the fuel is spent ([None]). *)
Definition MO (A : Type) : Type :=
  state → list effect → option (result A * state * list effect).

Definition finish {A} (m : M state A) : MO A := fun s l => Some (m s l).

Definition and_then {A B} (m : M state A) (k : A → MO B) : MO B :=
  fun s l =>
    match m s l with
    | (Ok a, s', l') => k a s' l'
    | (Throw e, s', l') => Some (Throw e, s', l')
    end.

Definition try_catch_O {A} (body : MO A) (handler : JS.error → M state A) : MO A :=
  fun s l =>
    match body s l with
    | Some (Ok a, s', l') => Some (Ok a, s', l')
    | Some (Throw e, s', l') => Some (handler e s' l')
    | None => None
    end.

(** The loop of [fetchSkills]; one unit of fuel per test of [nextUrl]. *)
Fixpoint fetch_pages (fuel : nat) (net : string → outcome page)
    (nextUrl : option string) (allSkills : list skill) : MO (list skill) :=
  match fuel with
  | O => fun _ _ => None
  | S fuel' =>
      match truthy_url nextUrl with
      | None => finish (mret allSkills)
      | Some u =>
          and_then (axios_get u (net u)) (fun data =>
          and_then (prop data results) (fun res =>
          and_then (lift (spread res)) (fun more =>
          and_then (prop data next) (fun nxt =>
          fetch_pages fuel' net nxt (allSkills ++ more)))))
      end
  end.

Definition fetchSkills (fuel : nat) (net : string → outcome page) : MO unit :=
  try_catch_O
    (fun s l =>
       match fetch_pages fuel net (Some first_url) [] s l with
       | Some (Ok allSkills, s', l') => Some (modify (setSkills (Arr allSkills)) s' l')
       | Some (Throw e, s', l') => Some (Throw e, s', l')
       | None => None
       end)
    (fun err => console_error "Error fetching skills:" err).

(** The key of [acc[category]]: the value as a string.  An integer is
    printed with all its decimal digits; the language does so below 10^21
    and turns to the exponent form from there on, which is left out. *)
Definition ToPropertyKey (v : jsval) : string :=
  match v with
  | JUndefined => "undefined"
  | JNull => "null"
  | JBool true => "true"
  | JBool false => "false"
  | JNum n => Blog.number_string n
  | JStr t => t
  end.

(** The properties every object inherits from [Object.prototype]: each is
    truthy, and none is an array. *)
Definition inherited : list string :=
  ["constructor"; "__defineGetter__"; "__defineSetter__"; "hasOwnProperty";
   "__lookupGetter__"; "__lookupSetter__"; "isPrototypeOf";
   "propertyIsEnumerable"; "toString"; "valueOf"; "__proto__";
   "toLocaleString"].

Definition is_inherited (key : string) : bool :=
  existsb (String.eqb key) inherited.

(** The accumulator of the [reduce]: its own properties in the order of
    their creation. *)
Fixpoint own (key : string) (acc : list (string * list skill)) : option (list skill) :=
  match acc with
  | [] => None
  | (k, rows) :: acc' => if String.eqb key k then Some rows else own key acc'
  end.

Fixpoint push (key : string) (sk : skill) (acc : list (string * list skill))
    : list (string * list skill) :=
  match acc with
  | [] => []
  | (k, rows) :: acc' =>
      if String.eqb key k then (k, rows ++ [sk]) :: acc'
      else (k, rows) :: push key sk acc'
  end.

(** [if (!acc[category]) acc[category] = []; acc[category].push(skill)]:
    an inherited property is found, is truthy and has no [push]. *)
Definition group_step (acc : list (string * list skill)) (sk : skill)
    : result (list (string * list skill)) :=
  let category := ToPropertyKey (category_display sk) in
  match own category acc with
  | Some _ => Ok (push category sk acc)
  | None =>
      if is_inherited category then Throw TypeError
      else Ok (acc ++ [(category, [sk])])
  end.

Fixpoint reduce (rows : list skill) (acc : list (string * list skill))
    : result (list (string * list skill)) :=
  match rows with
  | [] => Ok acc
  | sk :: rows' => acc' ← group_step acc sk; reduce rows' acc'
  end.

Definition groupedSkills (s : state) : result (list (string * list skill)) :=
  rows ← array_of (skills s);
  reduce rows [].

(** A key that is an array index: the decimal form of an integer below
    2^32 - 1. *)
Definition array_index (key : string) : option Z :=
  match key with
  | EmptyString => None
  | _ =>
      match number_of key 0 with
      | Some n => if (n <=? 4294967294) && String.eqb (decimal n) key
                  then Some n else None
      | None => None
      end
  end.

Fixpoint insert_index (n : Z) (e : string * list skill)
    (sorted : list (Z * (string * list skill))) : list (Z * (string * list skill)) :=
  match sorted with
  | [] => [(n, e)]
  | (m, e') :: rest =>
      if n <? m then (n, e) :: sorted else (m, e') :: insert_index n e rest
  end.

(** [Object.entries(obj)]: the array indices in ascending order, then the
    other keys in the order of their creation. *)
Definition entries (obj : list (string * list skill)) : list (string * list skill) :=
  map snd
    (fold_left
       (fun sorted e =>
          match array_index (fst e) with
          | Some n => insert_index n e sorted
          | None => sorted
          end) obj [])
  ++ List.filter (fun e => negb (bool_decide (is_Some (array_index (fst e))))) obj.

(** The sections of the page: one per category, with its skills. *)
Definition render (s : state) : result (list (string * list skill)) :=
  groups ← groupedSkills s;
  Ok (entries groups).

(** The category a skill is filed under. *)
Definition key_of (sk : skill) : string := ToPropertyKey (category_display sk).

(** What the accumulator holds once the skills [seen] have been filed. *)
Definition filed (acc : list (string * list skill)) (seen : list skill) : Prop :=
  NoDup (map fst acc)
  ∧ (∀ k, own k acc
          = match List.filter (fun sk => String.eqb (key_of sk) k) seen with
            | [] => None
            | g => Some g
            end)
  ∧ concat (map snd acc) ≡ₚ seen
  ∧ map (fun e => JStr (fst e)) acc = Set_of (map (fun sk => JStr (key_of sk)) seen).

(** How a request for a page can fail inside the loop: the promise rejects,
    the [data] of the response is [null], or its [results] cannot be
    spread. *)
Definition page_error (o : outcome page) : option JS.error :=
  match o with
  | Rejected e => Some e
  | Resolved None => Some TypeError
  | Resolved (Some b) =>
      match spread (results b) with
      | Throw e => Some e
      | Ok _ => None
      end
  end.

(** The pages reached from [url] by following [next], up to the value
    [stop] of the last [next]. *)
Fixpoint walk (net : string → outcome page) (url : option string)
    (bodies : list page) (stop : option string) : Prop :=
  match bodies with
  | [] => url = stop
  | b :: bs =>
      ∃ u, truthy_url url = Some u ∧ net u = Resolved (Some b)
           ∧ walk net (next b) bs stop
  end.

(** The URLs requested on the way. *)
Fixpoint walk_urls (url : option string) (bodies : list page) : list string :=
  match bodies with
  | [] => []
  | b :: bs =>
      match url with
      | Some u => u :: walk_urls (next b) bs
      | None => []
      end
  end.

(** The skills of the pages, in order. *)
Fixpoint walk_skills (bodies : list page) : result (list skill) :=
  match bodies with
  | [] => Ok []
  | b :: bs => l ← spread (results b); ls ← walk_skills bs; Ok (l ++ ls)
  end.

End About.

(** ** Sample data *)

Module Samples.
Import Project.

Definition p_null : project :=
  {| id := JNum 1; title := JStr "Untitled"; category := JNull;
     technologies := None; created_at := JNull; featured := JBool false |}.

Definition p_web : project :=
  {| id := JNum 2; title := JStr "Shop"; category := JStr "web";
     technologies := Some [JStr "React"; JStr "Django"];
     created_at := JStr "2024-01-15T10:30:00Z"; featured := JBool true |}.

Definition p_blank : project :=
  {| id := JNum 3; title := JStr "Notes"; category := JStr "web";
     technologies := Some [JStr ""; JStr "React"];
     created_at := JStr "2024-03-10T09:15:00Z"; featured := JBool false |}.

End Samples.

(** Sample pages of the skills endpoint. *)
Module AboutSamples.
Import About.

Definition sk (n : Z) (c : string) : skill :=
  {| id := JNum n; name := JStr "skill"; category_display := JStr c;
     proficiency := JNum 3; proficiency_display := JStr "Advanced" |}.

Definition second_url : string :=
  "http://127.0.0.1:8000/api/v1/portfolio/skills/?page=2&page_size=100".

Definition page1 : page :=
  {| results := Arr [sk 1 "Frontend"; sk 2 "Backend"]; next := Some second_url |}.
Definition page2 : page :=
  {| results := Arr [sk 3 "Frontend"]; next := None |}.
Definition page_loop : page :=
  {| results := Arr [sk 1 "Frontend"]; next := Some first_url |}.

(** Two pages. *)
Definition two_pages (u : string) : outcome page :=
  if String.eqb u first_url then Resolved (Some page1)
  else if String.eqb u second_url then Resolved (Some page2)
  else Rejected (NetworkError "Not Found").

(** The second page is not served. *)
Definition second_missing (u : string) : outcome page :=
  if String.eqb u first_url then Resolved (Some page1)
  else Rejected (NetworkError "Not Found").

(** The first page names itself as the next one. *)
Definition looping (u : string) : outcome page :=
  if String.eqb u first_url then Resolved (Some page_loop)
  else Rejected (NetworkError "Not Found").

End AboutSamples.

(** ** Running handlers *)

Ltac run_handler :=
  repeat (cbv beta iota zeta delta
            [mbind mret M_bind M_ret get modify perform throw lift try_catch
             try_finally console_error axios_get prop array_of
             result_bind result_ret]).

(** * Properties *)

(** ** Sets in insertion order *)

Lemma strict_eq_true (v w : jsval) : strict_eq v w = true ↔ v = w.
Proof. unfold strict_eq. apply bool_decide_eq_true. Qed.

Lemma strict_eq_refl (v : jsval) : strict_eq v v = true.
Proof. by apply strict_eq_true. Qed.

Lemma includes_In (xs : list jsval) (v : jsval) : includes xs v = true ↔ In v xs.
Proof.
  unfold includes. rewrite existsb_exists. split.
  - intros (w & Hw & Heq). apply strict_eq_true in Heq. by subst.
  - intros Hin. exists v. split; [done | apply strict_eq_refl].
Qed.

Lemma filter_twice {A} (p q : A → bool) (l : list A) :
  List.filter p (List.filter q l) = List.filter (fun y => q y && p y) l.
Proof.
  induction l as [|a l IH]; simpl; [done|].
  destruct (q a); simpl; [|done].
  destruct (p a); by rewrite IH.
Qed.

(** Adding the values of [xs] to a set that holds [seen] appends, in order,
    the values of [xs] that are new. *)
Lemma fold_Set_add (xs seen : list jsval) :
  fold_left Set_add xs seen
  = seen ++ List.filter (fun y => negb (includes seen y)) (first_seen xs).
Proof.
  revert seen. induction xs as [|x xs IH]; intros seen; simpl.
  - by rewrite app_nil_r.
  - rewrite IH. unfold Set_add. fold (includes seen x).
    destruct (includes seen x) eqn:Hx; simpl.
    + f_equal. rewrite filter_twice. apply filter_ext. intros y.
      destruct (strict_eq y x) eqn:Hyx; simpl; [|done].
      apply strict_eq_true in Hyx. subst y. by rewrite Hx.
    + rewrite <- app_assoc. simpl. do 2 f_equal.
      rewrite filter_twice. apply filter_ext. intros y.
      unfold includes. rewrite existsb_app. simpl.
      rewrite orb_false_r, negb_orb. apply andb_comm.
Qed.

(** [new Set(xs)] iterates over the distinct values of [xs] in first-seen
    order. *)
Lemma Set_of_first_seen (xs : list jsval) : Set_of xs = first_seen xs.
Proof.
  unfold Set_of. rewrite fold_Set_add. simpl.
  induction (first_seen xs) as [|y l IH]; simpl; [done | by rewrite IH].
Qed.

Lemma first_seen_In (xs : list jsval) (v : jsval) : In v (first_seen xs) ↔ In v xs.
Proof.
  induction xs as [|x xs IH]; simpl; [done|].
  rewrite filter_In, IH. split.
  - intros [H | [H _]]; auto.
  - intros [H | H]; [by left|].
    destruct (decide (v = x)) as [->|Hne]; [by left | right].
    split; [done|]. apply negb_true_iff.
    destruct (strict_eq v x) eqn:E; [|done]. by apply strict_eq_true in E.
Qed.

Lemma first_seen_NoDup (xs : list jsval) : NoDup (first_seen xs).
Proof.
  induction xs as [|x xs IH]; simpl; [constructor|].
  apply NoDup_cons. split.
  - rewrite list_elem_of_In, filter_In. intros [_ H].
    by rewrite strict_eq_refl in H.
  - clear -IH. induction IH as [|y l Hy _ IHl]; simpl; [constructor|].
    destruct (strict_eq y x); simpl; [done|].
    apply NoDup_cons. split; [|done].
    rewrite list_elem_of_In, filter_In. rewrite list_elem_of_In in Hy. tauto.
Qed.

(** The values keep the order of their first occurrences. *)
Lemma first_seen_sublist (xs : list jsval) : sublist (first_seen xs) xs.
Proof.
  induction xs as [|x xs IH]; simpl; [constructor|].
  apply sublist_skip. etrans; [|exact IH].
  clear. induction (first_seen xs) as [|y l IHl]; simpl; [constructor|].
  destruct (strict_eq y x); simpl; [by apply sublist_cons | by apply sublist_skip].
Qed.

(** ** The filter of the portfolio *)

Section PortfolioFilter.
Import Portfolio.

Lemma strict_eq_false (v w : jsval) : v ≠ w → strict_eq v w = false.
Proof.
  intros Hne. destruct (strict_eq v w) eqn:E; [|done].
  by apply strict_eq_true in E.
Qed.

Lemma filterProjects_all (s : state) (items : list project) (l : list effect) :
  projects s = Arr items →
  Portfolio.filterProjects (JStr "all") s l
  = (Ok (), after_filter s (JStr "all") items, l).
Proof.
  intros Hp. unfold Portfolio.filterProjects. run_handler. simpl.
  unfold setFilteredProjects, setSelectedCategory, after_filter. simpl.
  by rewrite Hp.
Qed.

Lemma filterProjects_key (s : state) (items : list project) (key : jsval)
    (l : list effect) :
  projects s = Arr items → key ≠ JStr "all" →
  Portfolio.filterProjects key s l
  = (Ok (),
     after_filter s key
       (List.filter (fun p => strict_eq (Project.category p) key) items), l).
Proof.
  intros Hp Hk. unfold Portfolio.filterProjects. run_handler.
  rewrite (strict_eq_false key (JStr "all") Hk).
  simpl. by rewrite Hp.
Qed.

Lemma tech_filterProjects_all (s : state) (items : list project) (l : list effect) :
  projects s = Arr items →
  PortfolioTech.filterProjects (JStr "all") s l
  = (Ok (), after_filter s (JStr "all") items, l).
Proof.
  intros Hp. unfold PortfolioTech.filterProjects. run_handler. simpl.
  unfold setFilteredProjects, setSelectedCategory, after_filter. simpl.
  by rewrite Hp.
Qed.

Lemma tech_filterProjects_key (s : state) (items : list project) (key : jsval)
    (l : list effect) :
  projects s = Arr items → key ≠ JStr "all" →
  PortfolioTech.filterProjects key s l
  = (Ok (), after_filter s key (List.filter (PortfolioTech.uses key) items), l).
Proof.
  intros Hp Hk. unfold PortfolioTech.filterProjects. run_handler.
  rewrite (strict_eq_false key (JStr "all") Hk).
  simpl. by rewrite Hp.
Qed.

Lemma uses_spec (key : jsval) (p : project) :
  PortfolioTech.uses key p = true
  ↔ ∃ ts, Project.technologies p = Some ts ∧ In key ts.
Proof.
  unfold PortfolioTech.uses. destruct (Project.technologies p) as [ts|].
  - rewrite includes_In. split; [eauto|]. by intros (? & [= <-] & ?).
  - split; [done|]. by intros (? & ? & ?).
Qed.

Lemma filter_sublist {A} (f : A → bool) (l : list A) : sublist (List.filter f l) l.
Proof.
  induction l as [|a l IH]; simpl; [constructor|].
  destruct (f a); [by apply sublist_skip | by apply sublist_cons].
Qed.

(** C1. Round trip: from a state that holds a fetched list, applying a
    filter key derived from the list and then the key "all" shows the
    fetched list again, element for element and in the original order,
    in the category version and in the technology version. *)
Theorem filter_then_all_restores (items : list project) (s : state)
    (l : list effect) :
  projects s = Arr items →
  (∀ keys key, Portfolio.categories s = Ok keys → In key keys →
     (Portfolio.filterProjects key;; Portfolio.filterProjects (JStr "all")) s l
     = (Ok (), after_filter s (JStr "all") items, l))
  ∧ (∀ keys key, PortfolioTech.technologies s = Ok keys → In key keys →
     (PortfolioTech.filterProjects key;; PortfolioTech.filterProjects (JStr "all")) s l
     = (Ok (), after_filter s (JStr "all") items, l)).
Proof.
  intros Hp. split; intros keys key _ _.
  - change ((Portfolio.filterProjects key;; Portfolio.filterProjects (JStr "all")) s l)
      with (match Portfolio.filterProjects key s l with
            | (Ok _, s', l') => Portfolio.filterProjects (JStr "all") s' l'
            | (Throw e, s', l') => (Throw e, s', l')
            end).
    destruct (decide (key = JStr "all")) as [->|Hk].
    + rewrite (filterProjects_all s items l Hp).
      by rewrite (filterProjects_all (after_filter s _ _) items l Hp).
    + rewrite (filterProjects_key s items key l Hp Hk).
      by rewrite (filterProjects_all (after_filter s _ _) items l Hp).
  - change ((PortfolioTech.filterProjects key;; PortfolioTech.filterProjects (JStr "all")) s l)
      with (match PortfolioTech.filterProjects key s l with
            | (Ok _, s', l') => PortfolioTech.filterProjects (JStr "all") s' l'
            | (Throw e, s', l') => (Throw e, s', l')
            end).
    destruct (decide (key = JStr "all")) as [->|Hk].
    + rewrite (tech_filterProjects_all s items l Hp).
      by rewrite (tech_filterProjects_all (after_filter s _ _) items l Hp).
    + rewrite (tech_filterProjects_key s items key l Hp Hk).
      by rewrite (tech_filterProjects_all (after_filter s _ _) items l Hp).
Qed.

(** C5. [applyFilter key] makes [key] the active filter and shows the
    fetched list when the key is "all", and otherwise the items whose
    filter field has the value [key] (the category equals it; in the
    technology version, one of the technologies equals it), in their
    original order.  Nothing else changes and nothing is logged: no
    request leaves.  Applying the same key again changes nothing. *)
Theorem applyFilter_sets_visible_and_is_idempotent (key : jsval) (s : state)
    (items : list project) (l : list effect) :
  projects s = Arr items →
  (∃ visible,
      Portfolio.filterProjects key s l = (Ok (), after_filter s key visible, l)
      ∧ (key = JStr "all" → visible = items)
      ∧ (key ≠ JStr "all" →
         visible = List.filter (fun p => bool_decide (Project.category p = key)) items)
      ∧ (∀ p, In p visible ↔
              In p items ∧ (key = JStr "all" ∨ Project.category p = key))
      ∧ sublist visible items
      ∧ Portfolio.filterProjects key (after_filter s key visible) l
        = (Ok (), after_filter s key visible, l))
  ∧ (∃ visible,
      PortfolioTech.filterProjects key s l = (Ok (), after_filter s key visible, l)
      ∧ (key = JStr "all" → visible = items)
      ∧ (key ≠ JStr "all" → visible = List.filter (PortfolioTech.uses key) items)
      ∧ (∀ p, In p visible ↔
              In p items ∧ (key = JStr "all" ∨
                ∃ ts, Project.technologies p = Some ts ∧ In key ts))
      ∧ sublist visible items
      ∧ PortfolioTech.filterProjects key (after_filter s key visible) l
        = (Ok (), after_filter s key visible, l)).
Proof.
  intros Hp. destruct (decide (key = JStr "all")) as [->|Hk].
  - split; exists items.
    + rewrite (filterProjects_all s items l Hp).
      split_and!; try done.
      * intros p. split; [intros H; split; [done | by left] | by intros [H _]].
      * exact (filterProjects_all (after_filter s (JStr "all") items) items l Hp).
    + rewrite (tech_filterProjects_all s items l Hp).
      split_and!; try done.
      * intros p. split; [intros H; split; [done | by left] | by intros [H _]].
      * exact (tech_filterProjects_all (after_filter s (JStr "all") items) items l Hp).
  - split.
    + exists (List.filter (fun p => strict_eq (Project.category p) key) items).
      rewrite (filterProjects_key s items key l Hp Hk).
      split_and!; try done.
      * intros p. rewrite filter_In, strict_eq_true. split; [tauto|].
        intros [Hin [Hall|Hc]]; done.
      * apply filter_sublist.
      * exact (filterProjects_key (after_filter s key _) items key l Hp Hk).
    + exists (List.filter (PortfolioTech.uses key) items).
      rewrite (tech_filterProjects_key s items key l Hp Hk).
      split_and!; try done.
      * intros p. rewrite filter_In, uses_spec. split; [tauto|].
        intros [Hin [Hall|Hc]]; done.
      * apply filter_sublist.
      * exact (tech_filterProjects_key (after_filter s key _) items key l Hp Hk).
Qed.

(** Witness of C1: the category key "web" and the technology key "React"
    over a list of three projects. *)
Lemma filter_then_all_restores_witness :
  let items := [Samples.p_null; Samples.p_web; Samples.p_blank] in
  let s := Portfolio.fetched_state items in
  projects s = Arr items
  ∧ Portfolio.categories s = Ok [JStr "all"; JStr "web"]
  ∧ (Portfolio.filterProjects (JStr "web");;
     Portfolio.filterProjects (JStr "all")) s [] = (Ok (), s, [])
  ∧ PortfolioTech.technologies s
    = Ok [JStr "all"; JStr "React"; JStr "Django"; JStr ""]
  ∧ (PortfolioTech.filterProjects (JStr "React");;
     PortfolioTech.filterProjects (JStr "all")) s [] = (Ok (), s, []).
Proof.
  pose proof (filter_then_all_restores
                [Samples.p_null; Samples.p_web; Samples.p_blank]
                (Portfolio.fetched_state
                   [Samples.p_null; Samples.p_web; Samples.p_blank])
                [] eq_refl) as [Hc Ht].
  split_and!.
  - reflexivity.
  - vm_compute. reflexivity.
  - apply (Hc [JStr "all"; JStr "web"] (JStr "web")).
    + vm_compute. reflexivity.
    + simpl. tauto.
  - vm_compute. reflexivity.
  - apply (Ht [JStr "all"; JStr "React"; JStr "Django"; JStr ""] (JStr "React")).
    + vm_compute. reflexivity.
    + simpl. tauto.
Defined.

(** Witness of C5: the key "web" shows the two web projects, and the key
    "Django" the one project that uses it. *)
Lemma applyFilter_sets_visible_and_is_idempotent_witness :
  let items := [Samples.p_null; Samples.p_web; Samples.p_blank] in
  let s := Portfolio.fetched_state items in
  projects s = Arr items
  ∧ Portfolio.filterProjects (JStr "web") s []
    = (Ok (), after_filter s (JStr "web") [Samples.p_web; Samples.p_blank], [])
  ∧ PortfolioTech.filterProjects (JStr "Django") s []
    = (Ok (), after_filter s (JStr "Django") [Samples.p_web], []).
Proof.
  pose proof (applyFilter_sets_visible_and_is_idempotent (JStr "web")
                (Portfolio.fetched_state
                   [Samples.p_null; Samples.p_web; Samples.p_blank])
                [Samples.p_null; Samples.p_web; Samples.p_blank]
                [] eq_refl) as [(v1 & H1 & _ & Hv1 & _) _].
  pose proof (applyFilter_sets_visible_and_is_idempotent (JStr "Django")
                (Portfolio.fetched_state
                   [Samples.p_null; Samples.p_web; Samples.p_blank])
                [Samples.p_null; Samples.p_web; Samples.p_blank]
                [] eq_refl) as [_ (v2 & H2 & _ & Hv2 & _)].
  split_and!.
  - reflexivity.
  - rewrite H1, Hv1; [reflexivity | discriminate].
  - rewrite H2, Hv2; [reflexivity | discriminate].
Defined.
End PortfolioFilter.

(** ** The filter keys *)

Section FilterKeys.
Import Portfolio.

Lemma flat_map_In_technologies (items : list project) (k : jsval) :
  In k (flat_map PortfolioTech.technologies_or_empty items)
  ↔ ∃ p ts, In p items ∧ Project.technologies p = Some ts ∧ In k ts.
Proof.
  rewrite in_flat_map. unfold PortfolioTech.technologies_or_empty. split.
  - intros (p & Hp & Hk). destruct (Project.technologies p) as [ts|] eqn:E;
      [eauto | done].
  - intros (p & ts & Hp & E & Hk). exists p. by rewrite E.
Qed.

(** C2, as the code has it.  In the category version the keys are "all"
    followed by the distinct truthy categories in first-seen order, so
    that null, undefined and the empty string are never keys.  In the
    technology version they are "all" followed by the distinct elements
    of the projects' technology arrays in first-seen order: a project
    without an array contributes nothing, and an element is a key
    whatever its value.  In both, the filter "all" shows every fetched
    item, also one without a category. *)
Theorem filter_keys_first_seen (s : state) (items : list project)
    (l : list effect) :
  projects s = Arr items →
  let cats := first_seen (List.filter ToBoolean (map Project.category items)) in
  let techs := first_seen (flat_map PortfolioTech.technologies_or_empty items) in
  Portfolio.categories s = Ok (JStr "all" :: cats)
  ∧ NoDup cats
  ∧ sublist cats (map Project.category items)
  ∧ (∀ k, In k cats ↔
          ToBoolean k = true ∧ ∃ p, In p items ∧ Project.category p = k)
  ∧ (¬ In JNull cats ∧ ¬ In JUndefined cats ∧ ¬ In (JStr "") cats)
  ∧ PortfolioTech.technologies s = Ok (JStr "all" :: techs)
  ∧ NoDup techs
  ∧ (∀ k, In k techs ↔
          ∃ p ts, In p items ∧ Project.technologies p = Some ts ∧ In k ts)
  ∧ Portfolio.filterProjects (JStr "all") s l
    = (Ok (), after_filter s (JStr "all") items, l)
  ∧ PortfolioTech.filterProjects (JStr "all") s l
    = (Ok (), after_filter s (JStr "all") items, l).
Proof.
  intros Hp cats techs.
  assert (∀ k, In k cats ↔
            ToBoolean k = true ∧ ∃ p, In p items ∧ Project.category p = k) as Hcats.
  { intros k. unfold cats. rewrite first_seen_In, filter_In, in_map_iff.
    split; intros [H1 H2]; split; try done.
    - destruct H1 as (p & <- & Hin). eauto.
    - destruct H2 as (p & Hin & <-). eauto. }
  split_and!.
  - unfold Portfolio.categories. rewrite Hp. simpl.
    by rewrite Set_of_first_seen.
  - apply first_seen_NoDup.
  - etrans; [apply first_seen_sublist | apply filter_sublist].
  - exact Hcats.
  - intros H. by apply Hcats in H as [? _].
  - intros H. by apply Hcats in H as [? _].
  - intros H. by apply Hcats in H as [? _].
  - unfold PortfolioTech.technologies. rewrite Hp. simpl.
    by rewrite Set_of_first_seen.
  - apply first_seen_NoDup.
  - intros k. unfold techs. rewrite first_seen_In.
    apply flat_map_In_technologies.
  - by apply filterProjects_all.
  - by apply tech_filterProjects_all.
Qed.

(** Witness of C2: a project with category null and one with category
    "web" give the keys "all" and "web", and both are shown under "all". *)
Lemma filter_keys_first_seen_witness :
  let items := [Samples.p_null; Samples.p_web] in
  let s := Portfolio.fetched_state items in
  projects s = Arr items
  ∧ Portfolio.categories s = Ok [JStr "all"; JStr "web"]
  ∧ Portfolio.filterProjects (JStr "all") s []
    = (Ok (), after_filter s (JStr "all") [Samples.p_null; Samples.p_web], []).
Proof.
  pose proof (filter_keys_first_seen
                (Portfolio.fetched_state [Samples.p_null; Samples.p_web])
                [Samples.p_null; Samples.p_web] [] eq_refl)
    as (Hkeys & _ & _ & _ & _ & _ & _ & _ & Hall & _).
  split_and!.
  - reflexivity.
  - rewrite Hkeys. vm_compute. reflexivity.
  - exact Hall.
Defined.

(** C2 as stated fails in the technology version: an empty technology
    name is a filter key. *)
Lemma technologies_keep_empty_name_counterexample :
  PortfolioTech.technologies (Portfolio.fetched_state [Samples.p_blank])
  = Ok [JStr "all"; JStr ""; JStr "React"]
  ∧ ToBoolean (JStr "") = false.
Proof. split; vm_compute; reflexivity. Qed.
End FilterKeys.

(** ** The first fetch of the portfolio *)

Section PortfolioFetch.
Import Portfolio.

(** A successful first fetch stores the list in both cells and ends the
    loading state: the states the filter lemmas start from. *)
Lemma fetchProjects_resolved (items : list project) (c : option Z) :
  Portfolio.fetchProjects
    (Resolved (Some {| results := Arr items; count := c |})) init []
  = (Ok (), fetched_state items, [HttpGet Portfolio.url])
  ∧ PortfolioTech.fetchProjects
      (Resolved (Some {| results := Arr items; count := c |})) init []
    = (Ok (), fetched_state items, [HttpGet PortfolioTech.url]).
Proof. split; reflexivity. Qed.

(** The state the failing fetch leaves: nothing fetched, not loading. *)
Lemma setLoading_init :
  setLoading false init
  = {| projects := Arr []; filteredProjects := Arr [];
       selectedCategory := JStr "all"; loading := false |}.
Proof. reflexivity. Qed.

(** C4. When the first fetch fails (the request rejects, or the [data] of
    the response is [null]) the handler returns normally, having issued one
    request and logged one diagnostic; it leaves [loading] false and the
    items empty, and the view is the page with the empty-state message. *)
Theorem failed_fetch_shows_empty_state (e : error) (h : host) :
  Portfolio.fetchProjects (Rejected e) init []
  = (Ok (), setLoading false init,
     [HttpGet Portfolio.url; ConsoleError "Error fetching projects:" e])
  ∧ Portfolio.fetchProjects (Resolved None) init []
    = (Ok (), setLoading false init,
       [HttpGet Portfolio.url; ConsoleError "Error fetching projects:" TypeError])
  ∧ loading (setLoading false init) = false
  ∧ projects (setLoading false init) = Arr []
  ∧ Portfolio.render h (setLoading false init)
    = Ok (Page [{| btn_key := JStr "all"; btn_active := true;
                   btn_label := JStr "All Projects" |}] NoProjects).
Proof. split_and!; reflexivity. Qed.

(** C9 as stated fails: a body without [results] is stored, nothing is
    logged, and the next render throws. *)
Lemma missing_results_crash_counterexample :
  Portfolio.fetchProjects
    (Resolved (Some {| results := NotArr JUndefined; count := None |})) init []
  = (Ok (),
     {| projects := NotArr JUndefined; filteredProjects := NotArr JUndefined;
        selectedCategory := JStr "all"; loading := false |},
     [HttpGet Portfolio.url])
  ∧ Portfolio.render utc_host
      {| projects := NotArr JUndefined; filteredProjects := NotArr JUndefined;
         selectedCategory := JStr "all"; loading := false |}
    = Throw TypeError.
Proof. split; reflexivity. Qed.

(** C9, as the code has it.  A body whose [results] is absent or not a
    list takes the success path: the value is stored as it came, [loading]
    becomes false and nothing is logged.  The derivation of the filter
    keys then throws a TypeError, in both versions of the view, and so
    does the render.  Only a [data] that is itself [null] takes the error
    path: reading its [results] throws inside the [try]. *)
Theorem shape_mismatch_is_stored_then_throws (v : jsval) (c : option Z) (h : host) :
  let bad := {| projects := NotArr v; filteredProjects := NotArr v;
                selectedCategory := JStr "all"; loading := false |} in
  Portfolio.fetchProjects
    (Resolved (Some {| results := NotArr v; count := c |})) init []
  = (Ok (), bad, [HttpGet Portfolio.url])
  ∧ Portfolio.categories bad = Throw TypeError
  ∧ Portfolio.render h bad = Throw TypeError
  ∧ PortfolioTech.fetchProjects
      (Resolved (Some {| results := NotArr v; count := c |})) init []
    = (Ok (), bad, [HttpGet PortfolioTech.url])
  ∧ PortfolioTech.technologies bad = Throw TypeError
  ∧ PortfolioTech.render h bad = Throw TypeError
  ∧ Portfolio.fetchProjects (Resolved None) init []
    = (Ok (), setLoading false init,
       [HttpGet Portfolio.url; ConsoleError "Error fetching projects:" TypeError]).
Proof. split_and!; reflexivity. Qed.
End PortfolioFetch.

(** ** The pagination of the blog *)

Section BlogPagination.
Import Blog.

(** [Math_ceil_div (Some c) 10] is the ceiling of c / 10. *)
Lemma Math_ceil_div_is_ceiling (c : Z) :
  ∃ t, Math_ceil_div (Some c) pageSize = Num t ∧ 10 * (t - 1) < c ≤ 10 * t.
Proof.
  exists (- ((- c) / 10)). split; [reflexivity|].
  pose proof (Z.div_mod (- c) 10 ltac:(lia)) as Hdm.
  pose proof (Z.mod_pos_bound (- c) 10 ltac:(lia)) as Hb.
  lia.
Qed.

Lemma fetchPosts_resolved (s : state) (l : list effect) (rs : fetched post)
    (c : option Z) :
  fetchPosts (Resolved (Some {| results := rs; count := c |})) s l
  = (Ok (),
     {| posts := rs; loading := false; currentPage := currentPage s;
        totalPages := Math_ceil_div c pageSize |},
     l ++ [HttpGet (url (currentPage s))]).
Proof. reflexivity. Qed.

(** C3. The page counter starts at 1.  A successful fetch sets
    [totalPages] to the ceiling of count / 10, which is 3 for a count of
    25.  The pagination bar is rendered exactly when [totalPages] exceeds
    1; on it, Previous is disabled exactly when the current page is 1 and
    Next exactly when the current page is the last one. *)
Theorem blog_pagination (s : state) (l : list effect) (rs : fetched post)
    (c : Z) (h : host) :
  currentPage init = 1
  ∧ (∃ t, fetchPosts (Resolved (Some {| results := rs; count := Some c |})) s l
          = (Ok (),
             {| posts := rs; loading := false; currentPage := currentPage s;
                totalPages := Num t |},
             l ++ [HttpGet (url (currentPage s))])
          ∧ 10 * (t - 1) < c ≤ 10 * t)
  ∧ fetchPosts (Resolved (Some {| results := rs; count := Some 25 |})) init []
    = (Ok (),
       {| posts := rs; loading := false; currentPage := 1; totalPages := Num 3 |},
       [HttpGet "http://127.0.0.1:8000/api/blog/posts/?page=1"])
  ∧ (∀ pg, render_pagination s = Some pg →
       (prev_disabled pg = true ↔ currentPage s = 1)
       ∧ (next_disabled pg = true ↔ totalPages s = Num (currentPage s)))
  ∧ (render_pagination s = None
     ↔ totalPages s = NaN ∨ ∃ k, totalPages s = Num k ∧ k ≤ 1)
  ∧ (∀ v, render h s = Ok v →
       v = Loading ∨ v = Page NoPosts
       ∨ ∃ cards, v = Page (Posts cards (render_pagination s))).
Proof.
  split_and!.
  - reflexivity.
  - destruct (Math_ceil_div_is_ceiling c) as (t & Ht & Hb).
    exists t. split; [|exact Hb]. rewrite fetchPosts_resolved. by rewrite Ht.
  - reflexivity.
  - intros pg. unfold render_pagination.
    destruct (gt_one (totalPages s)); [|done].
    intros [= <-]. simpl. split.
    + apply Z.eqb_eq.
    + destruct (totalPages s) as [|k]; simpl; [done|].
      rewrite Z.eqb_eq. split; [by intros -> | by intros [= ->]].
  - unfold render_pagination. destruct (totalPages s) as [|k]; simpl.
    + split; [by left | done].
    + destruct (1 <? k) eqn:E.
      * apply Z.ltb_lt in E. split; [done|].
        intros [? | (k' & [= <-] & ?)]; [done | lia].
      * apply Z.ltb_ge in E. split; [|done]. intros _. right. eauto.
  - intros v. unfold render. destruct (loading s); [intros [= <-]; by left|].
    destruct (posts s) as [[|p ps]|w].
    + intros [= <-]. right. by left.
    + destruct (map_result (render_post h) (p :: ps)) as [cards|e];
        simpl; [|done].
      intros [= <-]. right. right. by exists cards.
    + destruct w as [| |b|n|t]; try done.
      destruct (String.eqb t ""); [|done]. intros [= <-]. right. by left.
Qed.
End BlogPagination.

(** ** The contact form *)

Section ContactForm.
Import Contact.

Lemma handleSubmit_resume_rejected (s : state) (l : list effect) (e : error) :
  handleSubmit_resume (Rejected e) s l
  = (Ok (),
     {| formData := formData s; adminProfile := adminProfile s;
        isSubmitting := false; submitStatus := Some Error |},
     l ++ [ConsoleError "Error sending message:" e]).
Proof. reflexivity. Qed.

Lemma handleSubmit_resume_resolved (s : state) (l : list effect) (d : option unit) :
  handleSubmit_resume (Resolved d) s l
  = (Ok (),
     {| formData := empty_form; adminProfile := adminProfile s;
        isSubmitting := false; submitStatus := Some Success |},
     l).
Proof. reflexivity. Qed.

Lemma handleSubmit_begin_posts (s : state) (l : list effect) :
  handleSubmit_begin s l
  = (Ok (),
     {| formData := formData s; adminProfile := adminProfile s;
        isSubmitting := true; submitStatus := None |},
     l ++ [HttpPost messages_url (formData s)]).
Proof. reflexivity. Qed.

(** C6. When the POST of a submission fails, the handler logs the error
    and returns normally; afterwards the error banner is shown and the
    success banner is not, the submit button is enabled again, and the
    form data, hence every field the form displays, is what it was when
    the failure arrived. *)
Theorem failed_submission_keeps_the_form (valid : gmap string string → bool)
    (s : state) (n : nat) (l : list effect) (e : error) :
  let p := {| ui := s; in_flight := S n; log := l |} in
  let p' := step valid p (Settle (Rejected e)) in
  log p' = l ++ [ConsoleError "Error sending message:" e]
  ∧ in_flight p' = n
  ∧ formData (ui p') = formData s
  ∧ submitStatus (ui p') = Some Error
  ∧ isSubmitting (ui p') = false
  ∧ error_banner (render (ui p')) = true
  ∧ success_banner (render (ui p')) = false
  ∧ submit_disabled (render (ui p')) = false
  ∧ submit_label (render (ui p')) = "Send Message"
  ∧ name_value (render (ui p')) = name_value (render s)
  ∧ email_value (render (ui p')) = email_value (render s)
  ∧ subject_value (render (ui p')) = subject_value (render s)
  ∧ message_value (render (ui p')) = message_value (render s).
Proof. split_and!; reflexivity. Qed.

Lemma one_in_flight_step (valid : gmap string string → bool) (p : page)
    (ev : event) :
  one_in_flight p → one_in_flight (step valid p ev).
Proof.
  unfold one_in_flight. intros Hp. destruct ev as [name value| |o]; simpl.
  - exact Hp.
  - destruct (isSubmitting (ui p)) eqn:E; [by rewrite E|].
    destruct (valid (formData (ui p))); simpl; [by rewrite Hp | by rewrite E].
  - destruct (in_flight p) as [|n] eqn:En; [by rewrite En|].
    destruct (isSubmitting (ui p)); [|done].
    injection Hp as ->. by destruct o.
Qed.

Lemma one_in_flight_run (valid : gmap string string → bool) (evs : list event)
    (p : page) :
  one_in_flight p → one_in_flight (fold_left (step valid) evs p).
Proof.
  revert p. induction evs as [|ev evs IH]; intros p Hp; simpl; [done|].
  apply IH. by apply one_in_flight_step.
Qed.

(** C7. Whatever the user does and however the requests settle, at most
    one submission is in flight; the submit button is disabled exactly
    while one is; and activating the disabled button changes nothing, so
    that no further write request is issued. *)
Theorem single_submission_in_flight (valid : gmap string string → bool)
    (evs : list event) :
  let p := run valid evs in
  (in_flight p ≤ 1)%nat
  ∧ submit_disabled (render (ui p)) = negb (in_flight p =? 0)%nat
  ∧ (submit_disabled (render (ui p)) = true →
     step valid p Click_submit = p
     ∧ writes (step valid p Click_submit) = writes p).
Proof.
  intros p.
  assert (one_in_flight p) as Hinv by (by apply one_in_flight_run).
  unfold one_in_flight in Hinv. simpl. split_and!.
  - rewrite Hinv. destruct (isSubmitting (ui p)); lia.
  - rewrite Hinv. by destruct (isSubmitting (ui p)).
  - intros Hd. by rewrite Hd.
Qed.

(** The handler itself has no guard: run on a form that is already
    submitting, it posts again.  The disabled button is the only thing
    that keeps it from running. *)
Lemma handleSubmit_begin_has_no_guard (s : state) (l : list effect) :
  isSubmitting s = true →
  snd (handleSubmit_begin s l) = l ++ [HttpPost messages_url (formData s)].
Proof. reflexivity. Qed.
End ContactForm.

(** ** The reads of the home page *)

Section HomeReads.
Import Home.

(** Whatever the network answers, [fetchData] returns normally, and the
    requests it has issued are a prefix of the four in their fixed order. *)
Lemma home_requests_in_order (net : network) :
  ∃ s l, fetchData net init [] = (Ok (), s, l)
         ∧ requests l `prefix_of` [profile_url; skills_url; projects_url; posts_url].
Proof.
  destruct net as [a1 a2 a3 a4].
  destruct a1 as [e1|d1]; [eexists _, _; split; [reflexivity | by eexists]|].
  destruct a2 as [e2|[[[l2|v2] c2]|]];
    try (eexists _, _; split; [reflexivity | by eexists]).
  2: { destruct v2; try (eexists _, _; split; [reflexivity | by eexists]).
       destruct a3 as [e3|[[[l3|v3] c3]|]];
         try (eexists _, _; split; [reflexivity | by eexists]).
       destruct a4 as [e4|[[[l4|v4] c4]|]];
         try (eexists _, _; split; [reflexivity | by eexists]).
       destruct v4; eexists _, _; split; try reflexivity; by eexists. }
  destruct a3 as [e3|[[[l3|v3] c3]|]];
    try (eexists _, _; split; [reflexivity | by eexists]).
  destruct a4 as [e4|[[[l4|v4] c4]|]];
    try (eexists _, _; split; [reflexivity | by eexists]).
  destruct v4; eexists _, _; split; try reflexivity; by eexists.
Qed.

(** What [fetchData] does with the four reads.  They are issued one after
  another inside one [try]: each is requested after the previous one has
  settled into its own slice of the state.  When one of them fails, one
  diagnostic is logged, the reads after it are never issued, and the
  slices set so far keep their values.  When all succeed, each slice
  holds its own result.  In every case the handler returns normally and
  the requests issued are a prefix of the four in their fixed order. *)
Theorem home_reads_are_sequential (e : error)
  (profile : option (gmap string jsval))
  (sk : list skill) (pr : list project) (po : list post) (c1 c2 c3 : option Z)
  (a2 : outcome (listBody skill)) (a3 : outcome (listBody project))
  (a4 : outcome (listBody post)) :
let skills_ok := Resolved (Some {| results := Arr sk; count := c1 |}) in
let projects_ok := Resolved (Some {| results := Arr pr; count := c2 |}) in
let posts_ok := Resolved (Some {| results := Arr po; count := c3 |}) in
let featured_first :=
  take 3 (List.filter (fun p => ToBoolean (Project.featured p)) pr) in
fetchData {| profile_answer := Rejected e; skills_answer := a2;
             projects_answer := a3; posts_answer := a4 |} init []
= (Ok (), init,
   [HttpGet profile_url; ConsoleError "Error fetching data:" e])
∧ fetchData {| profile_answer := Resolved profile; skills_answer := Rejected e;
               projects_answer := a3; posts_answer := a4 |} init []
  = (Ok (), setAdminProfile profile init,
     [HttpGet profile_url; HttpGet skills_url;
      ConsoleError "Error fetching data:" e])
∧ fetchData {| profile_answer := Resolved profile; skills_answer := skills_ok;
               projects_answer := Rejected e; posts_answer := a4 |} init []
  = (Ok (), setSkills (Arr (take 6 sk)) (setAdminProfile profile init),
     [HttpGet profile_url; HttpGet skills_url; HttpGet projects_url;
      ConsoleError "Error fetching data:" e])
∧ fetchData {| profile_answer := Resolved profile; skills_answer := skills_ok;
               projects_answer := projects_ok; posts_answer := Rejected e |}
    init []
  = (Ok (),
     setFeaturedProjects (Arr featured_first)
       (setSkills (Arr (take 6 sk)) (setAdminProfile profile init)),
     [HttpGet profile_url; HttpGet skills_url; HttpGet projects_url;
      HttpGet posts_url; ConsoleError "Error fetching data:" e])
∧ fetchData {| profile_answer := Resolved profile; skills_answer := skills_ok;
               projects_answer := projects_ok; posts_answer := posts_ok |}
    init []
  = (Ok (),
     {| skills := Arr (take 6 sk); featuredProjects := Arr featured_first;
        recentPosts := Arr (take 3 po); adminProfile := profile |},
     [HttpGet profile_url; HttpGet skills_url; HttpGet projects_url;
      HttpGet posts_url])
∧ (∀ net, ∃ s l,
      fetchData net init [] = (Ok (), s, l)
      ∧ requests l `prefix_of` [profile_url; skills_url; projects_url; posts_url]).
Proof.
  split_and!; try reflexivity. apply home_requests_in_order.
Qed.
End HomeReads.

(** C8.  The page announces parallel calls that settle each on its own,
    and the code does not make them: when the profile request is rejected,
    the skills, projects and posts requests are never issued, although the
    network would have answered them, and their slices stay empty. *)
Theorem home_profile_failure_stops_the_other_reads :
  Home.fetchData
    {| Home.profile_answer := Rejected (NetworkError "Network Error");
       Home.skills_answer :=
         Resolved (Some {| results :=
                             Arr [{| skill_id := JNum 1; skill_name := JStr "Python";
                                     proficiency := JNum 5 |}];
                           count := Some 1 |});
       Home.projects_answer :=
         Resolved (Some {| results := Arr [Samples.p_web]; count := Some 1 |});
       Home.posts_answer :=
         Resolved (Some {| results := Arr []; count := Some 0 |}) |}
    Home.init []
  = (Ok (), Home.init,
     [HttpGet Home.profile_url;
      ConsoleError "Error fetching data:" (NetworkError "Network Error")])
  ∧ Home.requests
      [HttpGet Home.profile_url;
       ConsoleError "Error fetching data:" (NetworkError "Network Error")]
    = [Home.profile_url].
Proof. split; reflexivity. Qed.

(** ** Dates *)

Section Dates.

Lemma month_long_head (m : Z) (rest : string) :
  String.append (month_long m) rest ≠ "Invalid Date".
Proof.
  unfold month_long.
  repeat match goal with
         | |- context [match ?x with _ => _ end] => destruct x
         end;
    discriminate.
Qed.

(** A valid date never prints as the words Invalid Date: its text starts
    with the name of a month. *)
Lemma valid_date_is_formatted (h : host) (style : date_style) (t : Z) :
  toLocaleDateString h style (Some t) ≠ "Invalid Date".
Proof.
  unfold toLocaleDateString.
  destruct (civil_from_days ((t + LocalTZA h t) / msPerDay)) as [[y m] d].
  destruct style; apply month_long_head.
Qed.

Lemma formatted_invalid_iff (h : host) (style : date_style) (date : option Z) :
  toLocaleDateString h style date = "Invalid Date" ↔ date = None.
Proof.
  destruct date as [t|]; split; try done.
  intros H. by apply valid_date_is_formatted in H.
Qed.

(** C10, as the code has it.  [formatDate] returns a string for every
    value and cannot throw.  The string is the words Invalid Date exactly
    when the value makes an invalid date, which [undefined] and every
    string the host cannot parse do.  [null] does not: it converts to the
    time value 0, and the result is the formatted month and year of the
    epoch in local time. *)
Theorem formatDate_invalid_date (h : host) (v : jsval) :
  (Portfolio.formatDate h v = "Invalid Date" ↔ new_Date h v = None)
  ∧ (PortfolioTech.formatDate h v = "Invalid Date" ↔ new_Date h v = None)
  ∧ (Blog.formatDate h v = "Invalid Date" ↔ new_Date h v = None)
  ∧ Portfolio.formatDate h JUndefined = "Invalid Date"
  ∧ Blog.formatDate h JUndefined = "Invalid Date"
  ∧ (∀ s, Date_parse h s = None →
       Portfolio.formatDate h (JStr s) = "Invalid Date"
       ∧ Blog.formatDate h (JStr s) = "Invalid Date")
  ∧ new_Date h JNull = Some 0
  ∧ Portfolio.formatDate h JNull ≠ "Invalid Date"
  ∧ Blog.formatDate h JNull ≠ "Invalid Date"
  ∧ (LocalTZA h 0 = 0 →
       Portfolio.formatDate h JNull = "January 1970"
       ∧ Blog.formatDate h JNull = "January 1, 1970").
Proof.
  split_and!; try apply formatted_invalid_iff; try reflexivity.
  - intros s Hs. unfold Portfolio.formatDate, Blog.formatDate. simpl.
    by rewrite Hs.
  - apply valid_date_is_formatted.
  - apply valid_date_is_formatted.
  - intros Hz. unfold Portfolio.formatDate, Blog.formatDate. simpl.
    unfold toLocaleDateString. rewrite Hz. split; vm_compute; reflexivity.
Qed.

(** C10 as stated fails for [null]: the result is a formatted month and
    year, not the words Invalid Date. *)
Lemma formatDate_null_counterexample :
  Portfolio.formatDate utc_host JNull = "January 1970"
  ∧ Blog.formatDate utc_host JNull = "January 1, 1970".
Proof. split; vm_compute; reflexivity. Qed.

End Dates.

(** ** The model on the examples of the sources and of the tests *)

(** The example of the doc comment of [formatDate]. *)
Example formatDate_doc_example :
  Portfolio.formatDate utc_host (JStr "2024-01-15T10:30:00Z") = "January 2024"
  ∧ Blog.formatDate utc_host (JStr "2024-01-15T10:30:00Z") = "January 15, 2024".
Proof. split; vm_compute; reflexivity. Qed.

Example formatDate_leap_day :
  Blog.formatDate utc_host (JStr "2024-02-29T23:59:59Z") = "February 29, 2024"
  ∧ Blog.formatDate utc_host (JNum (-1)) = "December 31, 1969"
  ∧ Blog.formatDate utc_host (JStr "next week") = "Invalid Date".
Proof. split_and!; vm_compute; reflexivity. Qed.

(** The test "prevents multiple submissions while request is in progress",
    followed by a network failure: one write request, the error banner,
    and the subject still in its field. *)
Example contact_failure_scenario :
  let p := Contact.run (fun _ => true)
             [Contact.Type_in "name" "John Doe";
              Contact.Type_in "email" "john@example.com";
              Contact.Type_in "subject" "Test Subject";
              Contact.Type_in "message" "This is a test message";
              Contact.Click_submit; Contact.Click_submit;
              Contact.Settle (Rejected (NetworkError "Network error"))] in
  Contact.writes p = 1%nat
  ∧ Contact.in_flight p = 0%nat
  ∧ Contact.error_banner (Contact.render (Contact.ui p)) = true
  ∧ Contact.subject_value (Contact.render (Contact.ui p)) = Some "Test Subject"
  ∧ Contact.submit_disabled (Contact.render (Contact.ui p)) = false.
Proof. split_and!; vm_compute; reflexivity. Qed.

(** A successful submission clears the form. *)
Example contact_success_scenario :
  let p := Contact.run (fun _ => true)
             [Contact.Type_in "subject" "Test Subject"; Contact.Click_submit;
              Contact.Settle (Resolved (Some ()))] in
  Contact.success_banner (Contact.render (Contact.ui p)) = true
  ∧ Contact.subject_value (Contact.render (Contact.ui p)) = Some "".
Proof. split; vm_compute; reflexivity. Qed.

(** The first page of 25 posts: three page buttons, Previous disabled, Next
    enabled. *)
Example blog_first_page :
  let p := {| post_id := JNum 1; slug := JStr "hello"; post_title := JStr "Hello";
              content := JStr "First post";
              post_created_at := JStr "2024-01-15T10:30:00Z";
              post_category := JStr "web";
              post_tags := Arr [JStr "django"; JStr "react"; JStr "api";
                                JStr "rest"] |} in
  let '(_, s, _) :=
    Blog.fetchPosts (Resolved (Some {| results := Arr [p]; count := Some 25 |}))
      Blog.init [] in
  Blog.render utc_host s
  = Ok (Blog.Page
          (Blog.Posts
             [{| Blog.pc_key := JNum 1; Blog.pc_date := "January 15, 2024";
                 Blog.pc_category := JStr "web";
                 Blog.pc_excerpt := JStr "First post";
                 Blog.pc_tags := Shown [JStr "django"; JStr "react"; JStr "api"] |}]
             (Some {| Blog.prev_disabled := true; Blog.prev_target := 0;
                      Blog.numbers :=
                        [{| Blog.pb_page := 1; Blog.pb_active := true |};
                         {| Blog.pb_page := 2; Blog.pb_active := false |};
                         {| Blog.pb_page := 3; Blog.pb_active := false |}];
                      Blog.next_disabled := false; Blog.next_target := 2 |}))).
Proof. vm_compute. reflexivity. Qed.

(** The portfolio after a successful fetch, filtered by "web". *)
Example portfolio_filtered_view :
  let s := Portfolio.after_filter
             (Portfolio.fetched_state [Samples.p_null; Samples.p_web])
             (JStr "web") [Samples.p_web] in
  Portfolio.render utc_host s
  = Ok (Portfolio.Page
          [{| Portfolio.btn_key := JStr "all"; Portfolio.btn_active := false;
              Portfolio.btn_label := JStr "All Projects" |};
           {| Portfolio.btn_key := JStr "web"; Portfolio.btn_active := true;
              Portfolio.btn_label := JStr "Web" |}]
          (Portfolio.Cards
             [{| Portfolio.card_key := JNum 2;
                 Portfolio.card_category := JStr "web";
                 Portfolio.card_date := "January 2024";
                 Portfolio.card_tags := ["React"; "Django"] |}])).
Proof. vm_compute. reflexivity. Qed.

(** * Further properties of the views *)

(** ** Strings *)

Section Strings.
Import JSString.

Ltac zdiv := Z.div_mod_to_equations; lia.

Lemma code_range (c : Ascii.ascii) : 0 ≤ code c < 256.
Proof.
  unfold code. pose proof (Ascii.N_ascii_bounded c). lia.
Qed.

Lemma code_byte (n : Z) : 0 ≤ n < 256 → code (byte n) = n.
Proof.
  intros Hn. unfold code, byte.
  rewrite Ascii.N_ascii_embedding by lia. lia.
Qed.

Lemma low6_byte (n : Z) : 0 ≤ n < 64 → low6 (byte (128 + n)) = n.
Proof.
  intros Hn. unfold low6. rewrite code_byte by lia. zdiv.
Qed.

Lemma low6_range (c : Ascii.ascii) : 0 ≤ low6 c < 64.
Proof. unfold low6. zdiv. Qed.

(** How [units] reads a sequence, by the class of its first byte. *)
Lemma units_1 (c : Ascii.ascii) (s : string) :
  code c < 192 → units (String c s) = code c :: units s.
Proof. intros H. cbn [units]. by replace (code c <? 192) with true by lia. Qed.

Lemma units_2 (c0 c1 : Ascii.ascii) (s : string) :
  192 ≤ code c0 < 224 →
  units (String c0 (String c1 s)) = unit2 (code c0) c1 :: units s.
Proof.
  intros H. cbn [units].
  replace (code c0 <? 192) with false by lia.
  by replace (code c0 <? 224) with true by lia.
Qed.

Lemma units_3 (c0 c1 c2 : Ascii.ascii) (s : string) :
  224 ≤ code c0 < 240 →
  units (String c0 (String c1 (String c2 s))) = unit3 (code c0) c1 c2 :: units s.
Proof.
  intros H. cbn [units].
  replace (code c0 <? 192) with false by lia.
  replace (code c0 <? 224) with false by lia.
  by replace (code c0 <? 240) with true by lia.
Qed.

Lemma units_4 (c0 c1 c2 c3 : Ascii.ascii) (s : string) :
  240 ≤ code c0 →
  units (String c0 (String c1 (String c2 (String c3 s))))
  = high_surrogate (point4 (code c0) c1 c2 c3)
    :: low_surrogate (point4 (code c0) c1 c2 c3) :: units s.
Proof.
  intros H. cbn [units].
  replace (code c0 <? 192) with false by lia.
  replace (code c0 <? 224) with false by lia.
  by replace (code c0 <? 240) with false by lia.
Qed.

(** Reading back the bytes of a code unit gives the code unit. *)
Lemma units_utf8 (u : Z) (b : string) :
  valid_unit u → units (String.append (utf8 u) b) = u :: units b.
Proof.
  unfold valid_unit, utf8. intros Hu.
  destruct (u <? 128) eqn:E1; [|destruct (u <? 2048) eqn:E2].
  - apply Z.ltb_lt in E1.
    change (units (String (byte u) b) = u :: units b).
    rewrite units_1; rewrite code_byte; (done || lia).
  - apply Z.ltb_ge in E1. apply Z.ltb_lt in E2.
    change (units (String (byte (192 + u / 64)) (String (byte (128 + u mod 64)) b))
            = u :: units b).
    rewrite units_2 by (rewrite code_byte; zdiv).
    f_equal. unfold unit2. rewrite code_byte, low6_byte; zdiv.
  - apply Z.ltb_ge in E1, E2.
    change (units (String (byte (224 + u / 4096))
                     (String (byte (128 + (u / 64) mod 64))
                        (String (byte (128 + u mod 64)) b)))
            = u :: units b).
    rewrite units_3 by (rewrite code_byte; zdiv).
    f_equal. unfold unit3. rewrite code_byte, !low6_byte; zdiv.
Qed.

Lemma units_utf8_pair (hi lo : Z) (b : string) :
  is_high hi = true → is_low lo = true →
  units (String.append (utf8_pair hi lo) b) = hi :: lo :: units b.
Proof.
  unfold is_high, is_low. intros Hh Hl.
  assert (55296 ≤ hi < 56320 ∧ 56320 ≤ lo < 57344) as [Hhi Hlo] by lia.
  unfold utf8_pair.
  set (p := 65536 + (hi - 55296) * 1024 + (lo - 56320)).
  assert (65536 ≤ p < 1114112) as Hp by (unfold p; lia).
  change (units (String (byte (240 + p / 262144))
                   (String (byte (128 + (p / 4096) mod 64))
                      (String (byte (128 + (p / 64) mod 64))
                         (String (byte (128 + p mod 64)) b))))
          = hi :: lo :: units b).
  rewrite units_4 by (rewrite code_byte; zdiv).
  assert (point4 (code (byte (240 + p / 262144))) (byte (128 + (p / 4096) mod 64))
            (byte (128 + (p / 64) mod 64)) (byte (128 + p mod 64)) = p - 65536) as ->.
  { unfold point4. rewrite code_byte, !low6_byte; zdiv. }
  unfold high_surrogate, low_surrogate. f_equal; [|f_equal]; unfold p; zdiv.
Qed.


Lemma append_cons (x : Ascii.ascii) (a b : string) :
  String.append (String x a) b = String x (String.append a b).
Proof. reflexivity. Qed.

Lemma append_assoc (a b c : string) :
  String.append (String.append a b) c = String.append a (String.append b c).
Proof.
  induction a as [|x a IH]; [done|]. by rewrite !append_cons, IH.
Qed.

(** Reading back the bytes of a sequence of code units gives the sequence,
    whatever follows. *)
Lemma units_of_units_app (us : list Z) :
  (Forall valid_unit us →
   ∀ b, units (String.append (of_units us) b) = us ++ units b)
  ∧ (∀ u, Forall valid_unit (u :: us) →
     ∀ b, units (String.append (of_units (u :: us)) b) = (u :: us) ++ units b).
Proof.
  induction us as [|a us [IH1 IH2]].
  - split; [done|]. intros u Hu b. apply Forall_cons in Hu as [Hu _].
    by apply units_utf8.
  - split; [exact (IH2 a)|]. intros u Hu b.
    apply Forall_cons in Hu as [Hu Hus].
    change (of_units (u :: a :: us))
      with (if is_high u && is_low a
            then String.append (utf8_pair u a) (of_units us)
            else String.append (utf8 u) (of_units (a :: us))).
    destruct (is_high u && is_low a) eqn:E; rewrite append_assoc.
    + apply andb_true_iff in E as [Eh El].
      rewrite units_utf8_pair by done.
      apply Forall_cons in Hus as [_ Hus]. by rewrite IH1.
    + rewrite units_utf8 by done. by rewrite IH2.
Qed.

Lemma append_empty (a : string) : String.append a "" = a.
Proof. induction a as [|x a IH]; [done|]. by rewrite append_cons, IH. Qed.

Lemma units_of_units (us : list Z) :
  Forall valid_unit us → units (of_units us) = us.
Proof.
  intros H. rewrite <- (append_empty (of_units us)).
  rewrite (proj1 (units_of_units_app us) H). apply app_nil_r.
Qed.

(** Every code unit read off a [string] has sixteen bits. *)
Lemma units_valid_bounded (n : nat) (s : string) :
  (String.length s ≤ n)%nat → Forall valid_unit (units s).
Proof.
  revert s. induction n as [|n IH]; intros s Hn.
  { destruct s; [constructor | simpl in Hn; lia]. }
  destruct s as [|c0 s0]; [constructor|]. simpl in Hn.
  pose proof (code_range c0) as H0.
  assert (valid_unit (code c0)) as Hv0 by (unfold valid_unit; lia).
  assert (Forall valid_unit (units s0)) as Hs0 by (apply IH; lia).
  cbn [units].
  destruct (code c0 <? 192) eqn:E1; [by constructor|].
  destruct (code c0 <? 224) eqn:E2.
  { destruct s0 as [|c1 s1]; [constructor; [done | constructor]|].
    simpl in Hn. pose proof (low6_range c1).
    constructor; [unfold valid_unit, unit2; zdiv | apply IH; lia]. }
  destruct (code c0 <? 240) eqn:E3.
  { destruct s0 as [|c1 [|c2 s2]]; [by constructor | by constructor |].
    simpl in Hn. pose proof (low6_range c1). pose proof (low6_range c2).
    constructor; [unfold valid_unit, unit3; zdiv | apply IH; lia]. }
  destruct s0 as [|c1 [|c2 [|c3 s3]]]; [by constructor ..|].
  simpl in Hn.
  assert (0 ≤ point4 (code c0) c1 c2 c3 < 1048576) as Hp
    by (unfold point4; zdiv).
  constructor; [unfold valid_unit, high_surrogate; zdiv|].
  constructor; [unfold valid_unit, low_surrogate; zdiv | apply IH; lia].
Qed.

Lemma units_valid (s : string) : Forall valid_unit (units s).
Proof. by apply (units_valid_bounded (String.length s)). Qed.

Lemma units_append (us : list Z) (b : string) :
  Forall valid_unit us → units (String.append (of_units us) b) = us ++ units b.
Proof. intros H. by apply units_of_units_app. Qed.

(** [trim] takes white space off both ends, all of it and nothing else. *)
Lemma trim_start_spec (us : list Z) :
  ∃ pre, us = pre ++ trim_start us
         ∧ Forall (fun u => is_space u = true) pre
         ∧ (∀ u, head (trim_start us) = Some u → is_space u = false).
Proof.
  induction us as [|u us (pre & Heq & Hpre & Hhead)]; simpl.
  - exists []. by split_and!.
  - destruct (is_space u) eqn:E.
    + exists (u :: pre). split_and!; [by rewrite Heq at 1 | by constructor | done].
    + exists []. split_and!; [done | constructor | by intros ? [= <-]].
Qed.

Lemma trim_end_spec (us : list Z) :
  ∃ post, us = trim_end us ++ post
          ∧ Forall (fun u => is_space u = true) post
          ∧ (∀ u, last (trim_end us) = Some u → is_space u = false).
Proof.
  induction us as [|u us (post & Heq & Hpost & Hlast)]; simpl.
  - exists []. by split_and!.
  - destruct (trim_end us) as [|x r] eqn:Er.
    + destruct (is_space u) eqn:E.
      * exists (u :: post). simpl in Heq. subst us. by split_and!; [|constructor|].
      * exists post. simpl in Heq. subst us.
        split_and!; [done | done | by intros ? [= <-]].
    + exists post. split_and!; [by rewrite Heq at 1 | done | done].
Qed.

Lemma trim_end_head (us : list Z) (u : Z) :
  head us = Some u → is_space u = false → head (trim_end us) = Some u.
Proof.
  destruct us as [|v us]; [done|]. simpl. intros [= ->] Hu.
  destruct (trim_end us); [by rewrite Hu | done].
Qed.

Lemma trim_start_fixed (us : list Z) :
  (∀ u, head us = Some u → is_space u = false) → trim_start us = us.
Proof.
  destruct us as [|v us]; [done|]. simpl. intros H.
  by rewrite (H v eq_refl).
Qed.

Lemma trim_end_fixed (us : list Z) :
  (∀ u, last us = Some u → is_space u = false) → trim_end us = us.
Proof.
  induction us as [|v us IH]; [done|]. intros H. simpl.
  destruct us as [|w us].
  - simpl. by rewrite (H v eq_refl).
  - rewrite IH by (intros u Hu; by apply H). done.
Qed.

(** The code units of a trimmed string: those of the string between its
    leading and its trailing white space. *)
Lemma trim_spec (us : list Z) :
  ∃ pre post,
    us = pre ++ trim_end (trim_start us) ++ post
    ∧ Forall (fun u => is_space u = true) pre
    ∧ Forall (fun u => is_space u = true) post
    ∧ (∀ u, head (trim_end (trim_start us)) = Some u → is_space u = false)
    ∧ (∀ u, last (trim_end (trim_start us)) = Some u → is_space u = false).
Proof.
  destruct (trim_start_spec us) as (pre & Hpre & Hsp & Hhead).
  destruct (trim_end_spec (trim_start us)) as (post & Hpost & Hsp' & Hlast).
  exists pre, post. split_and!; try done.
  - by rewrite <- Hpost.
  - intros u Hu. destruct (trim_start us) as [|v vs] eqn:E; [done|].
    pose proof (Hhead v eq_refl) as Hv.
    rewrite (trim_end_head (v :: vs) v eq_refl Hv) in Hu.
    by injection Hu as <-.
Qed.

(** [split] cuts at every separator and nowhere else. *)
Lemma split_on_nonempty (sep : Z) (us : list Z) : split_on sep us ≠ [].
Proof.
  destruct us as [|u us]; simpl; [done|].
  destruct (u =? sep); [done|]. by destruct (split_on sep us).
Qed.

Lemma split_on_length (sep : Z) (us : list Z) :
  length (split_on sep us) = S (length (List.filter (Z.eqb sep) us)).
Proof.
  induction us as [|u us IH]; simpl; [done|].
  rewrite (Z.eqb_sym sep u). destruct (u =? sep); simpl; [by rewrite IH|].
  pose proof (split_on_nonempty sep us).
  by destruct (split_on sep us).
Qed.

Lemma split_on_pieces (sep : Z) (us piece : list Z) :
  In piece (split_on sep us) → List.filter (Z.eqb sep) piece = [].
Proof.
  revert piece. induction us as [|u us IH]; simpl; intros piece.
  - by intros [<-|[]].
  - destruct (u =? sep) eqn:E.
    + intros [<-|Hin]; [done | by apply IH].
    + destruct (split_on sep us) as [|p rest].
      * intros [<-|[]]. simpl. by rewrite Z.eqb_sym, E.
      * intros [<-|Hin]; [|apply IH; by right].
        simpl. rewrite Z.eqb_sym, E. apply IH. by left.
Qed.

Lemma split_on_join (sep : Z) (us : list Z) :
  join_on sep (split_on sep us) = us.
Proof.
  induction us as [|u us IH]; simpl; [done|].
  pose proof (split_on_nonempty sep us) as Hne.
  destruct (u =? sep) eqn:E.
  - apply Z.eqb_eq in E as ->.
    destruct (split_on sep us) as [|p rest]; [done|]. simpl in *. by rewrite IH.
  - destruct (split_on sep us) as [|p rest]; [done|].
    destruct rest; simpl in *; by rewrite <- IH.
Qed.

Lemma split_on_valid (sep : Z) (us piece : list Z) :
  Forall valid_unit us → In piece (split_on sep us) → Forall valid_unit piece.
Proof.
  revert piece. induction us as [|u us IH]; simpl; intros piece Hv.
  - by intros [<-|[]].
  - apply Forall_cons in Hv as [Hu Hv].
    destruct (u =? sep).
    + intros [<-|Hin]; [constructor | by apply IH].
    + destruct (split_on sep us) as [|p rest].
      * intros [<-|[]]. constructor; [done | constructor].
      * intros [<-|Hin]; [|apply IH; [done | by right]].
        constructor; [done|]. apply IH; [done | by left].
Qed.
End Strings.

(** ** The excerpt of a post card *)

Section BlogExcerpt.
Import Blog.

(** X1. [truncateContent] on a string never throws and never returns more
    than [maxLength] + 3 code units: a string of at most [maxLength] code
    units comes back as it is, a longer one as its first [maxLength] code
    units followed by three dots.  Every falsy content gives the empty
    string, and a truthy value that is not a string throws. *)
Theorem truncateContent_bounds (c : string) (maxLength : nat) :
  (∃ r, truncateContent (JStr c) maxLength = Ok (JStr r)
        ∧ (str_length r ≤ maxLength + 3)%nat
        ∧ ((str_length c ≤ maxLength)%nat → r = c)
        ∧ ((maxLength < str_length c)%nat →
           units r = take maxLength (units c) ++ units "..."
           ∧ str_length r = (maxLength + 3)%nat))
  ∧ (∀ v, ToBoolean v = false → truncateContent v maxLength = Ok (JStr ""))
  ∧ (∀ v, ToBoolean v = true → (∀ t, v ≠ JStr t) →
          truncateContent v maxLength = Throw TypeError).
Proof.
  split_and!.
  - destruct c as [|a c'].
    { exists "". split_and!; try done; unfold str_length; simpl; lia. }
    assert (ToBoolean (JStr (String a c')) = true) as Htr by done.
    revert Htr. generalize (String a c'). intros c Htr.
    unfold truncateContent. rewrite Htr. cbn [negb].
    destruct (str_length c <=? maxLength)%nat eqn:E.
    + apply Nat.leb_le in E. exists c. split_and!; try done; lia.
    + apply Nat.leb_gt in E.
      exists (String.append (substr0 maxLength c) "...").
      assert (units (String.append (substr0 maxLength c) "...")
              = take maxLength (units c) ++ units "...") as Hunits.
      { unfold substr0. apply units_append.
        apply Forall_take, units_valid. }
      assert (str_length (String.append (substr0 maxLength c) "...")
              = (maxLength + 3)%nat) as Hlen.
      { unfold str_length in *. rewrite Hunits, length_app, length_take.
        change (length (units "...")) with 3%nat. lia. }
      split_and!; [done | lia | lia | done].
  - intros v Hv. unfold truncateContent, or_else. by rewrite Hv.
  - intros v Hv Hns. unfold truncateContent. rewrite Hv. simpl.
    destruct v as [| |b|n|t]; try done. by destruct (Hns t).
Qed.

(** The excerpt of a text of 151 letters with an accent: the letters are
    counted, not their bytes. *)
Example truncateContent_counts_code_units :
  let e := "é" in
  str_length e = 1%nat
  ∧ truncateContent (JStr (String.concat "" (replicate 150 e))) 150
    = Ok (JStr (String.concat "" (replicate 150 e)))
  ∧ truncateContent (JStr (String.concat "" (replicate 151 e))) 150
    = Ok (JStr (String.append (String.concat "" (replicate 150 e)) "...")).
Proof. vm_compute. split_and!; reflexivity. Qed.
End BlogExcerpt.

(** ** Moving between the pages of the blog *)

Section BlogPages.
Import Blog.

Lemma seqZ_one_hit (m : Z) (len : nat) (x : Z) :
  m ≤ x < m + Z.of_nat len →
  length (List.filter (fun page => x =? page) (seqZ m (Z.of_nat len))) = 1%nat.
Proof.
  revert m. induction len as [|len IH]; intros m Hx; [lia|].
  rewrite Nat2Z.inj_succ, seqZ_cons by lia. simpl.
  replace (Z.pred (Z.succ (Z.of_nat len))) with (Z.of_nat len) by lia.
  destruct (x =? m) eqn:E.
  - apply Z.eqb_eq in E. subst x. simpl. f_equal.
    clear. generalize (Z.succ m), (Z.lt_succ_diag_r m). intros m' Hm'.
    revert m' Hm'. induction len as [|len IH]; intros m' Hm'; [done|].
    rewrite Nat2Z.inj_succ, seqZ_cons by lia. simpl.
    replace (Z.pred (Z.succ (Z.of_nat len))) with (Z.of_nat len) by lia.
    destruct (m =? m') eqn:E; [apply Z.eqb_eq in E; lia|].
    apply IH. lia.
  - apply Z.eqb_neq in E. apply IH. lia.
Qed.

(** X2. On a pagination bar rendered for a current page between 1 and
    [totalPages], the page buttons are 1 to [totalPages], exactly one of
    them is active and it is the current page, and every control that is
    not disabled leads to a page between 1 and [totalPages]. *)
Theorem pagination_stays_in_range (s : state) (k : Z) (pg : pagination) :
  totalPages s = Num k →
  1 ≤ currentPage s ≤ k →
  render_pagination s = Some pg →
  map pb_page (numbers pg) = seqZ 1 k
  ∧ (∀ b, In b (numbers pg) →
          1 ≤ pb_page b ≤ k ∧ (pb_active b = true ↔ pb_page b = currentPage s))
  ∧ length (List.filter pb_active (numbers pg)) = 1%nat
  ∧ (prev_disabled pg = false → 1 ≤ prev_target pg ≤ k)
  ∧ (next_disabled pg = false → 1 ≤ next_target pg ≤ k).
Proof.
  intros Hk Hcur. unfold render_pagination. rewrite Hk. simpl.
  destruct (1 <? k) eqn:E; [|done]. intros [= <-]. simpl. split_and!.
  - rewrite map_map. simpl. apply map_id.
  - intros b Hb. apply in_map_iff in Hb as (page & <- & Hpage). simpl.
    apply list_elem_of_In, elem_of_seqZ in Hpage. split; [lia|].
    rewrite Z.eqb_eq. split; done.
  - rewrite <- (length_map pb_page).
    assert (∀ l, map pb_page
              (List.filter pb_active
                 (map (fun page => {| pb_page := page;
                                      pb_active := currentPage s =? page |}) l))
            = List.filter (fun page => currentPage s =? page) l) as ->.
    { induction l as [|a l IH]; simpl; [done|].
      destruct (currentPage s =? a); simpl; by rewrite IH. }
    replace k with (Z.of_nat (Z.to_nat k)) by lia.
    apply seqZ_one_hit. lia.
  - rewrite Z.eqb_neq. lia.
  - rewrite Z.eqb_neq. lia.
Qed.

(** Witness of X2: page 2 of 3. *)
Lemma pagination_stays_in_range_witness :
  let s := {| posts := Arr []; loading := false; currentPage := 2;
              totalPages := Num 3 |} in
  totalPages s = Num 3
  ∧ 1 ≤ currentPage s ≤ 3
  ∧ (∃ pg, render_pagination s = Some pg
           ∧ map pb_page (numbers pg) = [1; 2; 3]
           ∧ length (List.filter pb_active (numbers pg)) = 1%nat).
Proof.
  split_and!; [reflexivity | simpl; lia | simpl; lia |].
  eexists. split; [reflexivity|].
  pose proof (pagination_stays_in_range
                {| posts := Arr []; loading := false; currentPage := 2;
                   totalPages := Num 3 |} 3 _ eq_refl
                ltac:(simpl; lia) eq_refl) as (H1 & _ & H3 & _).
  split; [exact H1 | exact H3].
Defined.

(** X3. Changing the page scrolls to the top and requests that page.  When
    the request succeeds the posts are replaced by the page's results,
    whatever was shown before; when it fails the handler logs the error and
    the previous posts and page count stay on screen under the new page
    number. *)
Theorem page_change_replaces_or_keeps_posts (s : state) (l : list effect)
    (page : Z) (rs : fetched post) (c : option Z) (e : error) :
  (handlePageChange page;;
   fetchPosts (Resolved (Some {| results := rs; count := c |}))) s l
  = (Ok (),
     {| posts := rs; loading := false; currentPage := page;
        totalPages := Math_ceil_div c pageSize |},
     l ++ [ScrollToTop; HttpGet (url page)])
  ∧ (handlePageChange page;; fetchPosts (Rejected e)) s l
    = (Ok (),
       {| posts := posts s; loading := false; currentPage := page;
          totalPages := totalPages s |},
       l ++ [ScrollToTop; HttpGet (url page);
             ConsoleError "Error fetching blog posts:" e]).
Proof.
  split.
  - unfold handlePageChange, fetchPosts. run_handler. simpl.
    by rewrite <- !app_assoc.
  - unfold handlePageChange, fetchPosts. run_handler. simpl.
    by rewrite <- !app_assoc.
Qed.
End BlogPages.

(** ** The detail view of a post *)

Section BlogPostView.

(** X4. When the request for a post is rejected the view shows Post Not
    Found, and so it does when the [data] of the response is [null]; in
    both cases the loading state ends and the handler returns normally.
    Only the rejection is logged and recorded in [error]. *)
Theorem missing_post_shows_not_found (h : host) (slug : string) (e : error) :
  BlogPost.fetchPost slug (Rejected e) BlogPost.init []
  = (Ok (),
     {| BlogPost.post := None; BlogPost.loading := false;
        BlogPost.error := Some "Post not found" |},
     [HttpGet (BlogPost.url slug); ConsoleError "Error fetching blog post:" e])
  ∧ BlogPost.render h
      {| BlogPost.post := None; BlogPost.loading := false;
         BlogPost.error := Some "Post not found" |}
    = Ok BlogPost.NotFound
  ∧ BlogPost.fetchPost slug (Resolved None) BlogPost.init []
    = (Ok (),
       {| BlogPost.post := None; BlogPost.loading := false;
          BlogPost.error := None |},
       [HttpGet (BlogPost.url slug)])
  ∧ BlogPost.render h
      {| BlogPost.post := None; BlogPost.loading := false;
         BlogPost.error := None |}
    = Ok BlogPost.NotFound.
Proof. split_and!; reflexivity. Qed.

(** X5. Nothing clears [error]: once a request has failed, a later
    successful request (the effect runs again when the slug changes) stores
    the post, yet the view keeps showing Post Not Found. *)
Theorem error_outlives_a_later_success (h : host) (s : BlogPost.state)
    (l : list effect) (slug : string) (p : BlogPost.post_detail) (msg : string) :
  BlogPost.error s = Some msg →
  ∃ s', BlogPost.fetchPost slug (Resolved (Some p)) s l
        = (Ok (), s', l ++ [HttpGet (BlogPost.url slug)])
        ∧ BlogPost.post s' = Some p
        ∧ BlogPost.loading s' = false
        ∧ BlogPost.error s' = Some msg
        ∧ BlogPost.render h s' = Ok BlogPost.NotFound.
Proof.
  intros He. eexists. split; [reflexivity|]. simpl.
  split_and!; try done. unfold BlogPost.render. simpl. by rewrite He.
Qed.

(** Witness of X5: a failed request for one slug, then a successful one
    for another. *)
Lemma error_outlives_a_later_success_witness :
  let p := {| BlogPost.d_title := JStr "Hello"; BlogPost.d_category := JStr "web";
              BlogPost.d_created_at := JStr "2024-01-15T10:30:00Z";
              BlogPost.d_excerpt := JNull; BlogPost.d_featured_image := JNull;
              BlogPost.d_content := JStr "<p>Hi</p>";
              BlogPost.d_tags := JStr "django, react" |} in
  let s := {| BlogPost.post := None; BlogPost.loading := false;
              BlogPost.error := Some "Post not found" |} in
  BlogPost.error s = Some "Post not found"
  ∧ ∃ s', BlogPost.fetchPost "hello" (Resolved (Some p)) s []
          = (Ok (), s', [HttpGet (BlogPost.url "hello")])
          ∧ BlogPost.post s' = Some p
          ∧ BlogPost.render utc_host s' = Ok BlogPost.NotFound.
Proof.
  split; [reflexivity|].
  destruct (error_outlives_a_later_success utc_host
              {| BlogPost.post := None; BlogPost.loading := false;
                 BlogPost.error := Some "Post not found" |} [] "hello"
              {| BlogPost.d_title := JStr "Hello"; BlogPost.d_category := JStr "web";
                 BlogPost.d_created_at := JStr "2024-01-15T10:30:00Z";
                 BlogPost.d_excerpt := JNull; BlogPost.d_featured_image := JNull;
                 BlogPost.d_content := JStr "<p>Hi</p>";
                 BlogPost.d_tags := JStr "django, react" |}
              "Post not found" eq_refl) as (s' & H1 & H2 & _ & _ & H5).
  exists s'. split_and!; [exact H1 | exact H2 | exact H5].
Defined.

(** The pieces of a split string and their code units. *)
Lemma split_comma_pieces (t piece : string) :
  In piece (BlogPost.split_comma t) →
  ∃ us, piece = of_units us ∧ units piece = us
        ∧ Forall valid_unit us
        ∧ List.filter (Z.eqb BlogPost.comma) us = [].
Proof.
  unfold BlogPost.split_comma, split. intros Hin.
  apply in_map_iff in Hin as (us & <- & Hus).
  assert (Forall valid_unit us) as Hv
    by (eapply split_on_valid; [apply units_valid | exact Hus]).
  exists us. split_and!; [done | by apply units_of_units | done |].
  by eapply split_on_pieces.
Qed.

Lemma units_comma (rest : string) :
  units (String.append "," rest) = BlogPost.comma :: units rest.
Proof. change (String.append "," rest) with (String "," rest). by rewrite units_1. Qed.

Lemma units_join_comma (pieces : list (list Z)) :
  Forall (Forall valid_unit) pieces →
  units (BlogPost.join_comma (map of_units pieces)) = join_on BlogPost.comma pieces.
Proof.
  unfold BlogPost.join_comma.
  induction pieces as [|p pieces IH]; [done|]. intros Hv.
  apply Forall_cons in Hv as [Hp Hv].
  destruct pieces as [|q pieces]; [by apply units_of_units|].
  change (String.concat "," (map of_units (p :: q :: pieces)))
    with (String.append (of_units p)
            (String.append "," (String.concat "," (map of_units (q :: pieces))))).
  rewrite units_append by done. rewrite units_comma, IH by done. done.
Qed.

Lemma Forall2_map_In {A B} (P : A → B → Prop) (f : A → B) (l : list A) :
  (∀ x, In x l → P x (f x)) → Forall2 P l (map f l).
Proof.
  induction l as [|a l IH]; intros H; simpl; constructor.
  - apply H. by left.
  - apply IH. intros x Hx. apply H. by right.
Qed.

(** X6. The tags of a post are shown as one chip per piece between the
    commas of the tag string: one more chip than there are commas, pieces
    that are empty or blank included, and the pieces joined by commas give
    the tag string back.  Each chip is its piece without the white space
    at its two ends: what was taken off is white space only, and the chip
    neither starts nor ends with white space.  No chip contains a comma.
    A falsy value shows no tag section, and a truthy value that is not a
    string makes the render throw. *)
Theorem tag_chips (t : string) :
  t ≠ "" →
  ∃ chips, BlogPost.render_tags (JStr t) = Ok (Shown chips)
           ∧ length chips = S (BlogPost.commas t)
           ∧ units (BlogPost.join_comma (BlogPost.split_comma t)) = units t
           ∧ Forall2
               (fun piece chip =>
                  BlogPost.commas piece = 0%nat
                  ∧ ∃ pre post,
                      units piece = pre ++ units chip ++ post
                      ∧ Forall (fun u => is_space u = true) pre
                      ∧ Forall (fun u => is_space u = true) post
                      ∧ (∀ u, head (units chip) = Some u → is_space u = false)
                      ∧ (∀ u, last (units chip) = Some u → is_space u = false))
               (BlogPost.split_comma t) chips
           ∧ (∀ chip, In chip chips →
                BlogPost.commas chip = 0%nat ∧ trim chip = chip)
           ∧ (∀ v, ToBoolean v = false → BlogPost.render_tags v = Ok (Falsy v))
           ∧ (∀ v, ToBoolean v = true → (∀ t', v ≠ JStr t') →
                   BlogPost.render_tags v = Throw TypeError).
Proof.
  intros Ht. exists (map trim (BlogPost.split_comma t)).
  assert (∀ piece, In piece (BlogPost.split_comma t) →
            BlogPost.commas piece = 0%nat
            ∧ (∃ pre post,
                 units piece = pre ++ units (trim piece) ++ post
                 ∧ Forall (fun u => is_space u = true) pre
                 ∧ Forall (fun u => is_space u = true) post
                 ∧ (∀ u, head (units (trim piece)) = Some u → is_space u = false)
                 ∧ (∀ u, last (units (trim piece)) = Some u → is_space u = false))
            ∧ BlogPost.commas (trim piece) = 0%nat
            ∧ trim (trim piece) = trim piece) as Hpieces.
  { intros piece Hin.
    destruct (split_comma_pieces t piece Hin) as (us & _ & Hus & Hv & Hno).
    destruct (trim_spec us) as (pre & post & Heq & Hpre & Hpost & Hhead & Hlast).
    assert (Forall valid_unit (trim_end (trim_start us))) as Hvw.
    { rewrite Heq in Hv. by apply Forall_app in Hv as [_ [Hvw _]%Forall_app]. }
    assert (units (trim piece) = trim_end (trim_start us)) as Hchip.
    { unfold trim. rewrite Hus. by apply units_of_units. }
    unfold BlogPost.commas. rewrite Hchip, Hus, Hno. split_and!; [done | | |].
    - by exists pre, post.
    - rewrite Heq in Hno. rewrite !List.filter_app in Hno.
      apply app_eq_nil in Hno as [_ [Hw _]%app_eq_nil]. by rewrite Hw.
    - unfold trim at 1. rewrite Hchip.
      rewrite (trim_start_fixed _ Hhead), (trim_end_fixed _ Hlast).
      unfold trim. by rewrite Hus. }
  split_and!.
  - unfold BlogPost.render_tags. destruct t; [done | reflexivity].
  - unfold BlogPost.split_comma, split, BlogPost.commas.
    by rewrite !length_map, split_on_length.
  - unfold BlogPost.split_comma, split. rewrite units_join_comma.
    + apply split_on_join.
    + apply Forall_forall. intros piece Hp. apply list_elem_of_In in Hp.
      eapply split_on_valid; [apply units_valid | exact Hp].
  - apply Forall2_map_In. intros piece Hin.
    destruct (Hpieces piece Hin) as (H1 & H2 & _). by split.
  - intros chip Hin. apply in_map_iff in Hin as (piece & <- & Hp).
    destruct (Hpieces piece Hp) as (_ & _ & H3 & H4). by split.
  - intros v Hv. unfold BlogPost.render_tags. by rewrite Hv.
  - intros v Hv Hns. unfold BlogPost.render_tags. rewrite Hv. simpl.
    destruct v as [| |b|n|t']; try done. by destruct (Hns t').
Qed.

(** Witness of X6: a blank between two commas gives an empty chip, and a
    no-break space is white space as much as a space. *)
Lemma tag_chips_witness :
  "django, react, , api" ≠ ""
  ∧ ∃ chips, BlogPost.render_tags (JStr "django, react, , api") = Ok (Shown chips)
             ∧ length chips = 4%nat
             ∧ chips = ["django"; "react"; ""; "api"].
Proof.
  split; [discriminate|].
  destruct (tag_chips "django, react, , api" ltac:(discriminate))
    as (chips & Hr & Hlen & _).
  exists chips. split_and!; [exact Hr | by rewrite Hlen |].
  vm_compute in Hr. by injection Hr as <-.
Defined.
End BlogPostView.

(** ** Typing into and submitting the contact form *)

Section ContactTyping.
Import Contact.

(** X7. Typing into an input changes the value stored under the input's
    name to what was typed and leaves every other field, the banners, the
    submitting flag, the requests in flight and the log as they were. *)
Theorem typing_updates_only_its_field (valid : gmap string string → bool)
    (p : page) (name value : string) :
  let p' := step valid p (Type_in name value) in
  formData (ui p') !! name = Some value
  ∧ (∀ other, other ≠ name → formData (ui p') !! other = formData (ui p) !! other)
  ∧ submitStatus (ui p') = submitStatus (ui p)
  ∧ isSubmitting (ui p') = isSubmitting (ui p)
  ∧ adminProfile (ui p') = adminProfile (ui p)
  ∧ in_flight p' = in_flight p
  ∧ log p' = log p.
Proof.
  simpl. split_and!; try done.
  - apply lookup_insert_eq.
  - intros other Hne. by apply lookup_insert_ne.
Qed.

(** While a submission is in flight its status is [null]. *)
Lemma no_status_while_submitting (valid : gmap string string → bool)
    (evs : list event) (p : page) :
  (isSubmitting (ui p) = true → submitStatus (ui p) = None) →
  isSubmitting (ui (fold_left (step valid) evs p)) = true →
  submitStatus (ui (fold_left (step valid) evs p)) = None.
Proof.
  revert p. induction evs as [|ev evs IH]; intros p Hp; simpl; [done|].
  apply IH. destruct ev as [name value| |o]; simpl.
  - exact Hp.
  - destruct (isSubmitting (ui p)) eqn:E; [by rewrite E|].
    destruct (valid (formData (ui p))); simpl; [done | by rewrite E].
  - destruct (in_flight p); [exact Hp|]. by destruct o.
Qed.

(** X8. Whatever the user does and however the requests settle, the two
    banners are never shown together, and neither is shown while a
    submission is in flight: a new submission takes the banner of the
    previous one away. *)
Theorem banners_are_exclusive (valid : gmap string string → bool)
    (evs : list event) :
  let p := run valid evs in
  success_banner (render (ui p)) && error_banner (render (ui p)) = false
  ∧ (submit_disabled (render (ui p)) = true →
     success_banner (render (ui p)) = false
     ∧ error_banner (render (ui p)) = false).
Proof.
  intros p. split.
  - simpl. by destruct (submitStatus (ui p)) as [[]|].
  - simpl. intros Hs.
    assert (submitStatus (ui p) = None) as ->; [|done].
    by apply (no_status_while_submitting valid evs start).
Qed.

(** X9. When the POST of a submission succeeds the form is emptied, also
    of what was typed while the request was in flight: the four fields
    show the empty string, the success banner is shown, the error banner
    is not, the button is enabled again and nothing is logged. *)
Theorem successful_submission_clears_the_form (valid : gmap string string → bool)
    (s : state) (n : nat) (l : list effect) (d : option unit) :
  let p := {| ui := s; in_flight := S n; log := l |} in
  let p' := step valid p (Settle (Resolved d)) in
  formData (ui p') = empty_form
  ∧ name_value (render (ui p')) = Some ""
  ∧ email_value (render (ui p')) = Some ""
  ∧ subject_value (render (ui p')) = Some ""
  ∧ message_value (render (ui p')) = Some ""
  ∧ success_banner (render (ui p')) = true
  ∧ error_banner (render (ui p')) = false
  ∧ submit_disabled (render (ui p')) = false
  ∧ in_flight p' = n
  ∧ log p' = l.
Proof. split_and!; reflexivity. Qed.

(** X10. A click on the enabled submit button of a form that validates
    issues exactly one POST, whose body is the form data on screen; it
    disables the button, removes any banner, and leaves the fields as they
    are.  On a form that does not validate the click changes nothing. *)
Theorem accepted_click_posts_the_form (valid : gmap string string → bool)
    (p : page) :
  isSubmitting (ui p) = false →
  (valid (formData (ui p)) = true →
     log (step valid p Click_submit)
     = log p ++ [HttpPost messages_url (formData (ui p))]
     ∧ writes (step valid p Click_submit) = S (writes p)
     ∧ in_flight (step valid p Click_submit) = S (in_flight p)
     ∧ formData (ui (step valid p Click_submit)) = formData (ui p)
     ∧ submit_disabled (render (ui (step valid p Click_submit))) = true
     ∧ submitStatus (ui (step valid p Click_submit)) = None)
  ∧ (valid (formData (ui p)) = false → step valid p Click_submit = p).
Proof.
  intros Hs. split; intros Hv; simpl; rewrite Hs, Hv; [|done].
  simpl. split_and!; try done.
  unfold writes. simpl. rewrite List.filter_app, length_app. simpl. lia.
Qed.

(** Witness of X10: the first click on a filled form. *)
Lemma accepted_click_posts_the_form_witness :
  let p := run (fun _ => true) [Type_in "name" "John Doe"] in
  isSubmitting (ui p) = false
  ∧ writes (step (fun _ => true) p Click_submit) = 1%nat
  ∧ log (step (fun _ => true) p Click_submit)
    = [HttpPost messages_url (formData (ui p))].
Proof.
  pose proof (accepted_click_posts_the_form (fun _ => true)
                (run (fun _ => true) [Type_in "name" "John Doe"]) eq_refl)
    as [Hyes _].
  destruct (Hyes eq_refl) as (Hlog & Hw & _).
  split_and!; [reflexivity | exact Hw | exact Hlog].
Defined.
End ContactTyping.

(** ** Contact details and social links *)

Section ProfileDetails.
Import Profile.

(** X11. A contact detail shows Loading... as long as the profile is
    [null], which it stays when the profile request fails; with a profile
    it shows the property when that is truthy and Not available otherwise.
    A social icon opens a new tab exactly when it has a URL, and then
    carries noopener noreferrer; without a URL it points to # in the same
    tab. *)
Theorem contact_details_fallback (profile : option (gmap string jsval))
    (name : string) (e : error) :
  (profile = None → detail_text profile name = JStr "Loading...")
  ∧ (∀ m, profile = Some m → ToBoolean (chain profile name) = false →
          detail_text profile name = JStr "Not available")
  ∧ (ToBoolean (chain profile name) = true →
     detail_text profile name = chain profile name)
  ∧ Contact.fetchAdminProfile (Rejected e) Contact.init []
    = (Ok (), Contact.init,
       [HttpGet Contact.profile_url; ConsoleError "Error fetching admin profile:" e])
  ∧ contact_details (Contact.adminProfile Contact.init)
    = [JStr "Loading..."; JStr "Loading..."; JStr "Loading..."]
  ∧ (target (social_icon profile name) = "_blank"
     ↔ ToBoolean (chain profile name) = true)
  ∧ (target (social_icon profile name) = "_blank" →
     rel (social_icon profile name) = "noopener noreferrer"
     ∧ href (social_icon profile name) = chain profile name)
  ∧ (target (social_icon profile name) ≠ "_blank" →
     target (social_icon profile name) = "_self"
     ∧ href (social_icon profile name) = JStr "#").
Proof.
  unfold detail_text, social_icon, or_else. simpl. split_and!.
  - by intros ->.
  - intros m -> Hf. by rewrite Hf.
  - intros Ht. by rewrite Ht.
  - reflexivity.
  - reflexivity.
  - destruct (ToBoolean (chain profile name)); split; done.
  - destruct (ToBoolean (chain profile name)); done.
  - destruct (ToBoolean (chain profile name)); done.
Qed.

(** X12. The Connect section of the footer is never empty: it shows the
    loading text exactly while the profile is [null]; with a profile, each
    of the three links is shown exactly when its URL is truthy, and the
    text No social links available exactly when none of them is. *)
Theorem footer_connect_never_empty (profile : option (gmap string jsval)) :
  (profile = None ↔ footer_connect profile = LoadingLinks)
  ∧ (∀ g li x none, footer_connect profile = Links g li x none →
       (none = true ↔ is_shown g = false ∧ is_shown li = false ∧ is_shown x = false)
       ∧ (∀ m, profile = Some m →
            (is_shown g = true ↔ ToBoolean (default JUndefined (m !! "github_url")) = true)
            ∧ (is_shown li = true
               ↔ ToBoolean (default JUndefined (m !! "linkedin_url")) = true)
            ∧ (is_shown x = true
               ↔ ToBoolean (default JUndefined (m !! "twitter_url")) = true))
       ∧ (∀ link, g = Shown link ∨ li = Shown link ∨ x = Shown link →
            ToBoolean (snd link) = true)).
Proof.
  split.
  - destruct profile; split; done.
  - intros g li x none. destruct profile as [m|]; [|done].
    unfold footer_connect, footer_link. intros [= <- <- <- <-].
    destruct (ToBoolean (default JUndefined (m !! "github_url"))) eqn:E1;
      destruct (ToBoolean (default JUndefined (m !! "linkedin_url"))) eqn:E2;
      destruct (ToBoolean (default JUndefined (m !! "twitter_url"))) eqn:E3;
      simpl;
      (split_and!;
       [ split; [done | by intros (? & ? & ?)]
       | intros m' [= <-]; rewrite E1, E2, E3; split_and!; split; done
       | intros link [H|[H|H]]; try done; injection H as <-; done ]).
Qed.
End ProfileDetails.

(** ** What the home page keeps of its reads *)

Section HomeSlices.
Import Home.

Lemma take_sublist {A} (n : nat) (l : list A) : sublist (take n l) l.
Proof.
  revert n. induction l as [|a l IH]; intros [|n]; simpl;
    [constructor | constructor | apply sublist_nil_l | by apply sublist_skip].
Qed.

(** X13. After four successful reads the home page holds the first six
    skills, the first three posts, and of the projects the first three
    whose [featured] is truthy, in the order of the response: never more
    than three, never one that is not featured, and all the featured ones
    when there are at most three. *)
Theorem home_keeps_the_first_few (profile : option (gmap string jsval))
    (sk : list skill) (pr : list project) (po : list post)
    (c1 c2 c3 : option Z) :
  ∃ s fp,
    fetchData
      {| profile_answer := Resolved profile;
         skills_answer := Resolved (Some {| results := Arr sk; count := c1 |});
         projects_answer := Resolved (Some {| results := Arr pr; count := c2 |});
         posts_answer := Resolved (Some {| results := Arr po; count := c3 |}) |}
      init []
    = (Ok (), s,
       [HttpGet profile_url; HttpGet skills_url; HttpGet projects_url;
        HttpGet posts_url])
    ∧ skills s = Arr (take 6 sk)
    ∧ recentPosts s = Arr (take 3 po)
    ∧ featuredProjects s = Arr fp
    ∧ (length fp ≤ 3)%nat
    ∧ (∀ p, In p fp → In p pr ∧ ToBoolean (Project.featured p) = true)
    ∧ sublist fp pr
    ∧ fp `prefix_of` List.filter (fun p => ToBoolean (Project.featured p)) pr
    ∧ ((length (List.filter (fun p => ToBoolean (Project.featured p)) pr) ≤ 3)%nat →
       fp = List.filter (fun p => ToBoolean (Project.featured p)) pr).
Proof.
  eexists _, (take 3 (List.filter (fun p => ToBoolean (Project.featured p)) pr)).
  split; [reflexivity|]. simpl. split_and!; try done.
  - rewrite length_take. lia.
  - intros p Hin. apply list_elem_of_In, elem_of_take in Hin as (i & Hi & _).
    apply list_elem_of_lookup_2, list_elem_of_In, filter_In in Hi. done.
  - etrans; [apply take_sublist | apply filter_sublist].
  - apply prefix_take.
  - intros Hle. by apply take_ge.
Qed.
End HomeSlices.

(** ** More on the filter of the portfolio *)

Section PortfolioMore.
Import Portfolio.

(** The keys of both versions and what is among them. *)
Lemma keys_and_members (s : state) (items : list project) :
  projects s = Arr items →
  Portfolio.categories s
  = Ok (JStr "all" :: first_seen (List.filter ToBoolean (map Project.category items)))
  ∧ (∀ k, In k (first_seen (List.filter ToBoolean (map Project.category items))) ↔
          ToBoolean k = true ∧ ∃ p, In p items ∧ Project.category p = k)
  ∧ PortfolioTech.technologies s
    = Ok (JStr "all" :: first_seen (flat_map PortfolioTech.technologies_or_empty items))
  ∧ (∀ k, In k (first_seen (flat_map PortfolioTech.technologies_or_empty items)) ↔
          ∃ p ts, In p items ∧ Project.technologies p = Some ts ∧ In k ts).
Proof.
  intros Hp. split_and!.
  - unfold Portfolio.categories. rewrite Hp. simpl. by rewrite Set_of_first_seen.
  - intros k. rewrite first_seen_In, filter_In, in_map_iff.
    split; intros [H1 H2]; split; try done.
    + destruct H1 as (p & <- & Hin). eauto.
    + destruct H2 as (p & Hin & <-). eauto.
  - unfold PortfolioTech.technologies. rewrite Hp. simpl.
    by rewrite Set_of_first_seen.
  - intros k. rewrite first_seen_In. apply flat_map_In_technologies.
Qed.

(** X14. A filter key derived from the list always has matches: after
    filtering by a key other than "all" that is among the filter keys, the
    visible list is not empty, in the category version and in the
    technology version.  The empty-state message can therefore follow a
    click on a filter button only for the key "all" of an empty list. *)
Theorem derived_key_has_matches (s : state) (items : list project)
    (l : list effect) (key : jsval) :
  projects s = Arr items →
  key ≠ JStr "all" →
  (∀ keys, Portfolio.categories s = Ok keys → In key keys →
     ∃ visible, Portfolio.filterProjects key s l
                = (Ok (), after_filter s key visible, l)
                ∧ visible ≠ [])
  ∧ (∀ keys, PortfolioTech.technologies s = Ok keys → In key keys →
     ∃ visible, PortfolioTech.filterProjects key s l
                = (Ok (), after_filter s key visible, l)
                ∧ visible ≠ []).
Proof.
  intros Hp Hk.
  destruct (keys_and_members s items Hp) as (Hc & Hcin & Ht & Htin).
  split; intros keys Hkeys Hin.
  - rewrite Hc in Hkeys. injection Hkeys as <-.
    destruct Hin as [<-|Hin]; [done|].
    apply Hcin in Hin as (_ & p & Hpin & Hpc).
    eexists. split; [by apply filterProjects_key|].
    intros Hnil.
    assert (In p (List.filter (fun p => strict_eq (Project.category p) key) items))
      as Hin' by (apply filter_In; split; [done | by apply strict_eq_true]).
    by rewrite Hnil in Hin'.
  - rewrite Ht in Hkeys. injection Hkeys as <-.
    destruct Hin as [<-|Hin]; [done|].
    apply Htin in Hin as (p & ts & Hpin & Hts & Hkts).
    eexists. split; [by apply tech_filterProjects_key|].
    intros Hnil.
    assert (In p (List.filter (PortfolioTech.uses key) items)) as Hin'.
    { apply filter_In. split; [done|]. apply uses_spec. eauto. }
    by rewrite Hnil in Hin'.
Qed.

(** Witness of X14: the keys "web" and "Django". *)
Lemma derived_key_has_matches_witness :
  let items := [Samples.p_null; Samples.p_web; Samples.p_blank] in
  let s := fetched_state items in
  projects s = Arr items
  ∧ JStr "web" ≠ JStr "all"
  ∧ (∃ visible, Portfolio.filterProjects (JStr "web") s []
                = (Ok (), after_filter s (JStr "web") visible, [])
                ∧ visible ≠ []).
Proof.
  split_and!; [reflexivity | discriminate |].
  destruct (derived_key_has_matches
              (fetched_state [Samples.p_null; Samples.p_web; Samples.p_blank])
              [Samples.p_null; Samples.p_web; Samples.p_blank] [] (JStr "web")
              eq_refl ltac:(discriminate)) as [Hc _].
  apply (Hc [JStr "all"; JStr "web"]).
  - vm_compute. reflexivity.
  - simpl. tauto.
Defined.

(** X15. Filters do not stack: applying one key and then another leaves
    the view exactly as applying the second key alone does. *)
Theorem last_filter_wins (s : state) (items : list project) (l : list effect)
    (k1 k2 : jsval) :
  projects s = Arr items →
  (Portfolio.filterProjects k1;; Portfolio.filterProjects k2) s l
  = Portfolio.filterProjects k2 s l
  ∧ (PortfolioTech.filterProjects k1;; PortfolioTech.filterProjects k2) s l
    = PortfolioTech.filterProjects k2 s l.
Proof.
  intros Hp. split.
  - change ((Portfolio.filterProjects k1;; Portfolio.filterProjects k2) s l)
      with (match Portfolio.filterProjects k1 s l with
            | (Ok _, s', l') => Portfolio.filterProjects k2 s' l'
            | (Throw e, s', l') => (Throw e, s', l')
            end).
    destruct (decide (k1 = JStr "all")) as [->|H1];
      [rewrite (filterProjects_all s items l Hp)
      |rewrite (filterProjects_key s items k1 l Hp H1)];
      (destruct (decide (k2 = JStr "all")) as [->|H2];
       [rewrite (filterProjects_all (after_filter s _ _) items l Hp);
        by rewrite (filterProjects_all s items l Hp)
       |rewrite (filterProjects_key (after_filter s _ _) items k2 l Hp H2);
        by rewrite (filterProjects_key s items k2 l Hp H2)]).
  - change ((PortfolioTech.filterProjects k1;; PortfolioTech.filterProjects k2) s l)
      with (match PortfolioTech.filterProjects k1 s l with
            | (Ok _, s', l') => PortfolioTech.filterProjects k2 s' l'
            | (Throw e, s', l') => (Throw e, s', l')
            end).
    destruct (decide (k1 = JStr "all")) as [->|H1];
      [rewrite (tech_filterProjects_all s items l Hp)
      |rewrite (tech_filterProjects_key s items k1 l Hp H1)];
      (destruct (decide (k2 = JStr "all")) as [->|H2];
       [rewrite (tech_filterProjects_all (after_filter s _ _) items l Hp);
        by rewrite (tech_filterProjects_all s items l Hp)
       |rewrite (tech_filterProjects_key (after_filter s _ _) items k2 l Hp H2);
        by rewrite (tech_filterProjects_key s items k2 l Hp H2)]).
Qed.

(** Witness of X15: "web" and then "Django" in the technology version. *)
Lemma last_filter_wins_witness :
  let items := [Samples.p_null; Samples.p_web; Samples.p_blank] in
  let s := fetched_state items in
  projects s = Arr items
  ∧ (PortfolioTech.filterProjects (JStr "React");;
     PortfolioTech.filterProjects (JStr "Django")) s []
    = (Ok (), after_filter s (JStr "Django") [Samples.p_web], []).
Proof.
  split; [reflexivity|].
  destruct (last_filter_wins
              (fetched_state [Samples.p_null; Samples.p_web; Samples.p_blank])
              [Samples.p_null; Samples.p_web; Samples.p_blank] []
              (JStr "React") (JStr "Django") eq_refl) as [_ ->].
  vm_compute. reflexivity.
Defined.

(** X16. The filter buttons have distinct keys exactly when no item has
    the value "all" in its filter field: the sentinel is put in front of
    the distinct values without being looked for among them, so an item
    whose category, or one of whose technologies, is "all" gives a second
    button with the key of the first. *)
Theorem keys_distinct_unless_all (s : state) (items : list project) :
  projects s = Arr items →
  (∃ keys, Portfolio.categories s = Ok keys
           ∧ (NoDup keys ↔ ∀ p, In p items → Project.category p ≠ JStr "all"))
  ∧ (∃ keys, PortfolioTech.technologies s = Ok keys
             ∧ (NoDup keys ↔
                ∀ p ts, In p items → Project.technologies p = Some ts →
                        ¬ In (JStr "all") ts)).
Proof.
  intros Hp. destruct (keys_and_members s items Hp) as (Hc & Hcin & Ht & Htin).
  split; eexists; (split; [eassumption|]); rewrite NoDup_cons, list_elem_of_In.
  - rewrite Hcin. split.
    + intros [Hno _] p Hin Hall. apply Hno. split; [done | eauto].
    + intros Hno. split; [|apply first_seen_NoDup].
      intros (_ & p & Hin & Hall). by apply (Hno p).
  - rewrite Htin. split.
    + intros [Hno _] p ts Hin Hts Hall. apply Hno. eauto.
    + intros Hno. split; [|apply first_seen_NoDup].
      intros (p & ts & Hin & Hts & Hall). by apply (Hno p ts).
Qed.

(** Witness of X16: no sample project has the category "all". *)
Lemma keys_distinct_unless_all_witness :
  let items := [Samples.p_null; Samples.p_web] in
  projects (fetched_state items) = Arr items
  ∧ ∃ keys, Portfolio.categories (fetched_state items) = Ok keys ∧ NoDup keys.
Proof.
  split; [reflexivity|].
  destruct (keys_distinct_unless_all
              (fetched_state [Samples.p_null; Samples.p_web])
              [Samples.p_null; Samples.p_web] eq_refl) as [(keys & Hk & Hnd) _].
  exists keys. split; [exact Hk|]. apply Hnd.
  intros p [<-|[<-|[]]]; discriminate.
Defined.

Lemma bind_Ok {A B} (x : A) (f : A → result B) : (Ok x ≫= f) = f x.
Proof. reflexivity. Qed.

Lemma bind_Throw {A B} (e : error) (f : A → result B) : (Throw e ≫= f) = Throw e.
Proof. reflexivity. Qed.

Lemma map_result_throws {A B} (f : A → result B) (xs : list A) (x : A) (e : error) :
  In x xs → f x = Throw e → ∃ e', map_result f xs = Throw e'.
Proof.
  induction xs as [|a xs IH]; intros Hin Hx; [done|]. simpl.
  destruct Hin as [->|Hin].
  - rewrite Hx. eauto.
  - destruct (f a); [|eauto]. simpl.
    destruct (IH Hin Hx) as (e' & ->). eauto.
Qed.

Lemma map_result_ok {A B} (f : A → result B) (xs : list A) :
  (∀ x, In x xs → ∃ y, f x = Ok y) → ∃ ys, map_result f xs = Ok ys.
Proof.
  induction xs as [|a xs IH]; intros Hall; simpl; [eauto|].
  destruct (Hall a (or_introl eq_refl)) as (y & ->). simpl.
  destruct IH as (ys & ->); [|simpl; eauto].
  intros x Hx. apply Hall. by right.
Qed.

(** X17. The category version of the view renders whenever every category
    is a string or falsy and every technology of a visible project is a
    string; an item whose category is a truthy value that is not a string
    makes every render after loading throw, because the label of its
    filter button is computed with string methods. *)
Theorem render_needs_string_categories (h : host) (s : state)
    (items visible : list project) :
  projects s = Arr items →
  filteredProjects s = Arr visible →
  ((∀ p, In p items →
      ToBoolean (Project.category p) = false ∨ ∃ t, Project.category p = JStr t) →
   (∀ p ts tech, In p visible → Project.technologies p = Some ts → In tech ts →
      ∃ t, tech = JStr t) →
   ∃ v, Portfolio.render h s = Ok v)
  ∧ (loading s = false →
     (∃ p, In p items ∧ ToBoolean (Project.category p) = true
           ∧ ∀ t, Project.category p ≠ JStr t) →
     ∃ e, Portfolio.render h s = Throw e).
Proof.
  intros Hp Hf. destruct (keys_and_members s items Hp) as (Hc & Hcin & _).
  split.
  - intros Hcats Htechs. unfold Portfolio.render. rewrite Hc, bind_Ok.
    destruct (loading s); [eauto|].
    destruct (map_result_ok (render_button s)
                (JStr "all" :: first_seen (List.filter ToBoolean
                                             (map Project.category items))))
      as (bs & ->).
    { intros k [<-|Hk]; [by eexists|].
      apply Hcin in Hk as (Htr & p & Hin & <-).
      destruct (Hcats p Hin) as [Hfalse|(t & Ht')]; [congruence|].
      unfold render_button, button_label. rewrite Ht' in *.
      destruct (strict_eq (JStr t) (JStr "all")); [by eexists|].
      rewrite Htr. by eexists. }
    rewrite bind_Ok, Hf. unfold render_grid.
    destruct visible as [|p0 visible]; [rewrite bind_Ok; eauto|].
    destruct (map_result_ok (render_card h) (p0 :: visible)) as (cs & ->);
      [|rewrite !bind_Ok; eauto].
    intros p Hin. unfold render_card.
    destruct (Project.technologies p) as [ts|] eqn:Ets; [|by eexists].
    destruct (map_result_ok render_tag ts) as (tags & ->); [|by eexists].
    intros tech Htech. destruct (Htechs p ts tech Hin Ets Htech) as (t & ->).
    by eexists.
  - intros Hl (p & Hin & Htr & Hns). unfold Portfolio.render.
    rewrite Hc, bind_Ok, Hl.
    destruct (map_result_throws (render_button s)
                (JStr "all" :: first_seen (List.filter ToBoolean
                                             (map Project.category items)))
                (Project.category p) TypeError) as (e & ->);
      [| |rewrite bind_Throw; eauto].
    + right. apply Hcin. eauto.
    + unfold render_button, button_label.
      rewrite (strict_eq_false (Project.category p) (JStr "all")) by apply Hns.
      rewrite Htr. simpl.
      destruct (Project.category p) as [| |b|n|t]; try done. by destruct (Hns t).
Qed.

(** Witness of X17: the sample projects render, and a project with the
    category 5 does not. *)
Lemma render_needs_string_categories_witness :
  let five := {| Project.id := JNum 4; Project.title := JStr "Five";
                 Project.category := JNum 5; Project.technologies := None;
                 Project.created_at := JNull; Project.featured := JNull |} in
  projects (fetched_state [five]) = Arr [five]
  ∧ filteredProjects (fetched_state [five]) = Arr [five]
  ∧ (∃ e, Portfolio.render utc_host (fetched_state [five]) = Throw e)
  ∧ (∃ v, Portfolio.render utc_host
            (fetched_state [Samples.p_null; Samples.p_web]) = Ok v).
Proof.
  split_and!; [reflexivity | reflexivity | |].
  - eapply (render_needs_string_categories utc_host (fetched_state [_]) [_] [_]
              eq_refl eq_refl); [reflexivity|].
    eexists. split; [by left|]. split; [reflexivity | discriminate].
  - eapply (render_needs_string_categories utc_host (fetched_state [_; _])
              [_; _] [_; _] eq_refl eq_refl).
    + intros p [<-|[<-|[]]]; [by left | right; by eexists].
    + intros p ts tech [<-|[<-|[]]]; [done|].
      intros [= <-] [<-|[<-|[]]]; by eexists.
Defined.
End PortfolioMore.

(** ** The cards of the blog list *)

Section BlogCards.
Import Blog.

Lemma map_result_ok_iff {A B} (f : A → result B) (xs : list A) :
  (∃ ys, map_result f xs = Ok ys) ↔ ∀ x, In x xs → ∃ y, f x = Ok y.
Proof.
  split; [|apply map_result_ok].
  intros (ys & Hys) x Hx. destruct (f x) as [y|e] eqn:E; [eauto|].
  destruct (map_result_throws f xs x e Hx E) as (e' & He'). congruence.
Qed.

(** What a post must hold for its card to render, on the values the
    model has: a content that is a string or falsy, and tags that are
    falsy or an array whose first three elements are neither [null] nor
    [undefined]. *)
Lemma render_post_ok_iff (h : host) (p : post) :
  (∃ card, render_post h p = Ok card)
  ↔ (ToBoolean (content p) = false ∨ ∃ c, content p = JStr c)
    ∧ match post_tags p with
      | Arr l => ∀ tag, In tag (take 3 l) → tag ≠ JUndefined ∧ tag ≠ JNull
      | NotArr v => ToBoolean v = false
      end.
Proof.
  unfold render_post.
  assert ((∃ ex, truncateContent (content p) 150 = Ok ex)
          ↔ (ToBoolean (content p) = false ∨ ∃ c, content p = JStr c)) as Hc.
  { unfold truncateContent. destruct (ToBoolean (content p)) eqn:E; simpl.
    - destruct (content p) as [| |b|n|c]; simpl;
        (split; [intros (ex & Hex); try done; right; eauto
                | intros [?|(c' & ?)]; try done]).
      destruct (str_length c <=? 150)%nat; eauto.
    - split; [by left | eauto]. }
  assert ((∃ tags, render_post_tags (post_tags p) = Ok tags)
          ↔ match post_tags p with
            | Arr l => ∀ tag, In tag (take 3 l) → tag ≠ JUndefined ∧ tag ≠ JNull
            | NotArr v => ToBoolean v = false
            end) as Ht.
  { unfold render_post_tags. destruct (post_tags p) as [l|v].
    - assert ((∃ labels, map_result tag_label (take 3 l) = Ok labels)
              ↔ ∀ tag, In tag (take 3 l) → tag ≠ JUndefined ∧ tag ≠ JNull) as <-.
      { rewrite map_result_ok_iff. split; intros H tag Hin.
        - destruct (H tag Hin) as (y & Hy). by destruct tag.
        - destruct (H tag Hin) as [? ?]. destruct tag; by eauto. }
      split; [intros (tags & Htags) | intros (labels & ->); simpl; eauto].
      destruct (map_result tag_label (take 3 l)); [eauto | done].
    - destruct (ToBoolean v); (split; [intros (tags & Htags) | intros Hv]);
        by eauto. }
  rewrite <- Hc, <- Ht. split.
  - intros (card & Hcard).
    destruct (truncateContent (content p) 150) as [ex|]; [|done].
    rewrite bind_Ok in Hcard.
    destruct (render_post_tags (post_tags p)) as [tags|]; [eauto | done].
  - intros [(ex & ->) (tags & ->)]. rewrite !bind_Ok. eauto.
Qed.

(** X25. After loading, the list of posts renders when every post has a
    content that is a string or falsy and tags that are falsy or an array
    whose first three elements are strings.  It throws when some post has
    a content that is truthy and not a string, tags that are truthy and not
    an array, or [null] or [undefined] among its first three tags.  The
    detail view reads the tags of a post as one string and splits it at
    the commas; the list view throws on a post with such a string. *)
Theorem blog_list_needs_tag_arrays (h : host) (s : state) (ps : list post) :
  loading s = false →
  posts s = Arr ps →
  ((∀ p, In p ps →
      (ToBoolean (content p) = false ∨ ∃ c, content p = JStr c)
      ∧ match post_tags p with
        | Arr l => ∀ tag, In tag (take 3 l) → ∃ t, tag = JStr t
        | NotArr v => ToBoolean v = false
        end) →
   ∃ v, render h s = Ok v)
  ∧ ((∃ p, In p ps
           ∧ ((ToBoolean (content p) = true ∧ ∀ c, content p ≠ JStr c)
              ∨ match post_tags p with
                | Arr l => In JNull (take 3 l) ∨ In JUndefined (take 3 l)
                | NotArr v => ToBoolean v = true
                end)) →
     ∃ e, render h s = Throw e)
  ∧ (∀ p t, In p ps → post_tags p = NotArr (JStr t) → t ≠ "" →
       (∃ e, render h s = Throw e)
       ∧ ∃ chips, BlogPost.render_tags (JStr t) = Ok (Shown chips)).
Proof.
  intros Hl Hp.
  assert ((∃ v, render h s = Ok v)
          ↔ ∃ cards, map_result (render_post h) ps = Ok cards) as Hr.
  { unfold render. rewrite Hl, Hp. destruct ps as [|p ps]; [simpl; split; eauto|].
    destruct (map_result (render_post h) (p :: ps)) as [cards|e].
    - rewrite bind_Ok. split; eauto.
    - rewrite bind_Throw. split; by intros (? & ?). }
  assert ((∃ v, render h s = Ok v)
          ↔ ∀ p, In p ps →
              (ToBoolean (content p) = false ∨ ∃ c, content p = JStr c)
              ∧ match post_tags p with
                | Arr l => ∀ tag, In tag (take 3 l) → tag ≠ JUndefined ∧ tag ≠ JNull
                | NotArr v => ToBoolean v = false
                end) as Hiff.
  { rewrite Hr, map_result_ok_iff. split; intros H p Hin.
    - apply (proj1 (render_post_ok_iff h p)). by apply H.
    - apply (proj2 (render_post_ok_iff h p)). by apply H. }
  assert ((∃ p, In p ps
             ∧ ((ToBoolean (content p) = true ∧ ∀ c, content p ≠ JStr c)
                ∨ match post_tags p with
                  | Arr l => In JNull (take 3 l) ∨ In JUndefined (take 3 l)
                  | NotArr v => ToBoolean v = true
                  end)) →
          ∃ e, render h s = Throw e) as Hthrows.
  { intros (p & Hin & Hbad).
    destruct (render h s) as [v|e] eqn:E; [|eauto].
    destruct (proj1 Hiff (ex_intro _ v eq_refl) p Hin) as [Hc Htags].
    destruct Hbad as [[Htr Hns]|Hbad].
    - destruct Hc as [Hc|(c & Hc)]; [congruence | by destruct (Hns c)].
    - destruct (post_tags p) as [l|w]; [|congruence].
      destruct Hbad as [Hbad|Hbad]; by destruct (Htags _ Hbad). }
  split_and!; [| exact Hthrows |].
  - intros Hall. apply Hiff. intros p Hin.
    destruct (Hall p Hin) as [Hc Htags]. split; [done|].
    destruct (post_tags p) as [l|w]; [|done].
    intros tag Htag. by destruct (Htags tag Htag) as (t & ->).
  - intros p t Hin Ht Hne. split.
    + apply Hthrows. exists p. split; [done|]. right. rewrite Ht. by destruct t.
    + unfold BlogPost.render_tags. destruct t; [done | simpl; eauto].
Qed.

(** Witness of X25: the same tags as an array and as a string. *)
Lemma blog_list_needs_tag_arrays_witness :
  let p (tags : fetched jsval) :=
    {| post_id := JNum 1; slug := JStr "hello"; post_title := JStr "Hello";
       content := JStr "First post";
       post_created_at := JStr "2024-01-15T10:30:00Z";
       post_category := JStr "web"; post_tags := tags |} in
  let s (tags : fetched jsval) :=
    {| posts := Arr [p tags]; loading := false; currentPage := 1;
       totalPages := Num 1 |} in
  (∃ v, render utc_host (s (Arr [JStr "django"; JStr "react"])) = Ok v)
  ∧ (∃ e, render utc_host (s (NotArr (JStr "django, react"))) = Throw e)
  ∧ ∃ chips, BlogPost.render_tags (JStr "django, react") = Ok (Shown chips).
Proof.
  intros p s. split_and!.
  - apply (proj1 (blog_list_needs_tag_arrays utc_host
                    (s (Arr [JStr "django"; JStr "react"]))
                    [p (Arr [JStr "django"; JStr "react"])] eq_refl eq_refl)).
    intros q [<-|[]]. split; [right; by eexists|].
    intros tag [<-|[<-|[]]]; by eexists.
  - eapply (proj2 (proj2 (blog_list_needs_tag_arrays utc_host
                            (s (NotArr (JStr "django, react")))
                            [p (NotArr (JStr "django, react"))] eq_refl eq_refl))
              (p (NotArr (JStr "django, react"))) "django, react");
      [by left | reflexivity | discriminate].
  - eapply (proj2 (proj2 (blog_list_needs_tag_arrays utc_host
                            (s (NotArr (JStr "django, react")))
                            [p (NotArr (JStr "django, react"))] eq_refl eq_refl))
              (p (NotArr (JStr "django, react"))) "django, react");
      [by left | reflexivity | discriminate].
Defined.
End BlogCards.

(** ** The navigation bar *)

Section NavbarLinks.
Import Navbar.

(** X18. A link of the navigation bar is active exactly when the path of
    the page is the link's own path.  At most one link is active at a
    time, exactly one on the five pages of the menu, and none anywhere
    else: on the page of a single blog post the Blog link is not
    active. *)
Theorem one_active_link (pathname : string) :
  (∀ path, In (path, true) (nav_links pathname) ↔ In path nav_paths ∧ pathname = path)
  ∧ (length (List.filter snd (nav_links pathname)) ≤ 1)%nat
  ∧ (length (List.filter snd (nav_links pathname)) = 1%nat ↔ In pathname nav_paths)
  ∧ (∀ slug, List.filter snd (nav_links (String.append "/blog/" slug)) = []).
Proof.
  assert (∀ path, In (path, true) (nav_links pathname)
                  ↔ In path nav_paths ∧ pathname = path) as Hact.
  { intros path. unfold nav_links. rewrite in_map_iff. split.
    - intros (q & [= <- Hq] & Hin). split; [done|].
      by apply String.eqb_eq.
    - intros [Hin <-]. exists pathname. split; [|done].
      unfold isActive. by rewrite String.eqb_refl. }
  split_and!; [exact Hact | | |].
  - unfold nav_links, nav_paths, isActive. simpl.
    repeat match goal with
           | |- context [String.eqb pathname ?q] =>
               destruct (String.eqb_spec pathname q); [subst pathname|]
           end; simpl; lia.
  - unfold nav_links, nav_paths, isActive. simpl.
    repeat match goal with
           | |- context [String.eqb pathname ?q] =>
               destruct (String.eqb_spec pathname q); [subst pathname|]
           end; simpl; split; try done; try lia; try tauto.
    intros [?|[?|[?|[?|[?|[]]]]]]; congruence.
  - intros slug. reflexivity.
Qed.
End NavbarLinks.

(** ** The skills of the About page, grouped by category *)

Section AboutGroups.
Import About.

Lemma own_push (k key : string) (sk : skill) (acc : list (string * list skill)) :
  own k (push key sk acc)
  = if String.eqb k key then (fun g => g ++ [sk]) <$> own k acc else own k acc.
Proof.
  induction acc as [|[k' g] acc IH]; simpl; [by destruct (String.eqb k key)|].
  destruct (String.eqb key k') eqn:E1; simpl.
  - apply String.eqb_eq in E1. subst k'.
    by destruct (String.eqb k key).
  - destruct (String.eqb k k') eqn:E2; [|exact IH].
    apply String.eqb_eq in E2. subst k'.
    by rewrite String.eqb_sym, E1.
Qed.

Lemma own_snoc (k key : string) (g0 : list skill) (acc : list (string * list skill)) :
  own k (acc ++ [(key, g0)])
  = match own k acc with
    | Some g => Some g
    | None => if String.eqb k key then Some g0 else None
    end.
Proof.
  induction acc as [|[k' g] acc IH]; simpl; [done|].
  by destruct (String.eqb k k').
Qed.

Lemma push_keys (key : string) (sk : skill) (acc : list (string * list skill)) :
  map fst (push key sk acc) = map fst acc.
Proof.
  induction acc as [|[k' g] acc IH]; simpl; [done|].
  destruct (String.eqb key k'); simpl; [done | by rewrite IH].
Qed.

Lemma own_None (k : string) (acc : list (string * list skill)) :
  own k acc = None ↔ ¬ In k (map fst acc).
Proof.
  induction acc as [|[k' g] acc IH]; simpl; [tauto|].
  destruct (String.eqb_spec k k') as [->|Hne].
  - split; [done | intros H; destruct H; by left].
  - rewrite IH. split; [intros H [?|?]; [congruence | done] | tauto].
Qed.

Lemma own_In (k : string) (g : list skill) (acc : list (string * list skill)) :
  NoDup (map fst acc) → In (k, g) acc ↔ own k acc = Some g.
Proof.
  induction acc as [|[k' g'] acc IH]; simpl; [done|].
  intros Hnd. apply NoDup_cons in Hnd as [Hk' Hnd].
  destruct (String.eqb_spec k k') as [->|Hne].
  - split.
    + intros [[= -> ]|Hin]; [done|]. destruct Hk'.
      apply list_elem_of_In, in_map_iff. by exists (k', g).
    + intros [= ->]. by left.
  - rewrite <- (IH Hnd). split; [intros [[= -> _]|?]; done | by right].
Qed.

Lemma push_concat (key : string) (sk : skill) (acc : list (string * list skill)) :
  is_Some (own key acc) →
  concat (map snd (push key sk acc)) ≡ₚ sk :: concat (map snd acc).
Proof.
  induction acc as [|[k' g] acc IH]; simpl; [by intros [? ?]|].
  destruct (String.eqb key k'); simpl.
  - intros _. rewrite <- app_assoc. simpl.
    by rewrite <- Permutation_middle.
  - intros H. rewrite (IH H). by rewrite <- Permutation_middle.
Qed.

Lemma filter_snoc {A} (f : A → bool) (l : list A) (x : A) :
  List.filter f (l ++ [x]) = List.filter f l ++ (if f x then [x] else []).
Proof. rewrite List.filter_app. simpl. by destruct (f x). Qed.

Lemma Set_of_snoc (xs : list jsval) (x : jsval) :
  Set_of (xs ++ [x]) = Set_add (Set_of xs) x.
Proof. unfold Set_of. by rewrite fold_left_app. Qed.

Lemma key_among (key : string) (acc : list (string * list skill)) :
  existsb (strict_eq (JStr key)) (map (fun e => JStr (fst e)) acc) = true
  ↔ In key (map fst acc).
Proof.
  rewrite existsb_exists. split.
  - intros (v & Hv & Heq). apply strict_eq_true in Heq. subst v.
    apply in_map_iff in Hv as (e & [= He] & Hin).
    apply in_map_iff. by exists e.
  - intros Hin. apply in_map_iff in Hin as (e & He & Hin).
    exists (JStr key). split; [|apply strict_eq_refl].
    apply in_map_iff. exists e. by rewrite He.
Qed.

Lemma filed_nil : filed [] [].
Proof. split_and!; try done. constructor. Qed.

Lemma filed_step (acc acc' : list (string * list skill)) (seen : list skill)
    (sk : skill) :
  filed acc seen → group_step acc sk = Ok acc' → filed acc' (seen ++ [sk]).
Proof.
  intros (Hnd & Hown & Hperm & Hkeys). unfold group_step. fold (key_of sk).
  destruct (own (key_of sk) acc) as [g|] eqn:Eo.
  - intros [= <-]. split_and!.
    + by rewrite push_keys.
    + intros k. rewrite own_push, filter_snoc, (String.eqb_sym k (key_of sk)).
      destruct (String.eqb (key_of sk) k) eqn:E.
      * apply String.eqb_eq in E. subst k. rewrite Eo.
        rewrite Hown in Eo.
        destruct (List.filter _ seen) as [|a g'] eqn:Ef; [done|].
        injection Eo as <-. done.
      * rewrite app_nil_r. apply Hown.
    + rewrite push_concat by (by rewrite Eo).
      rewrite Hperm. by rewrite <- Permutation_cons_append.
    + rewrite map_app. simpl. rewrite Set_of_snoc, <- Hkeys.
      assert (map (fun e => JStr (fst e)) (push (key_of sk) sk acc)
              = map (fun e => JStr (fst e)) acc) as ->.
      { rewrite <- !(map_map fst JStr). by rewrite push_keys. }
      unfold Set_add.
      destruct (existsb (strict_eq (JStr (key_of sk)))
                  (map (fun e => JStr (fst e)) acc)) eqn:E; [done|].
      assert (¬ In (key_of sk) (map fst acc)) as Hn.
      { intros Hin. apply key_among in Hin. congruence. }
      apply own_None in Hn. congruence.
  - destruct (is_inherited (key_of sk)); [done|]. intros [= <-].
    assert (¬ In (key_of sk) (map fst acc)) as Hfresh by (by apply own_None).
    split_and!.
    + rewrite map_app. simpl. apply NoDup_app. split_and!; [done | |].
      * intros k Hk Hk2. apply list_elem_of_In in Hk, Hk2.
        destruct Hk2 as [Heq|[]]. rewrite <- Heq in Hk. by apply Hfresh.
      * apply NoDup_singleton.
    + intros k. rewrite own_snoc, filter_snoc, Hown, (String.eqb_sym k (key_of sk)).
      destruct (List.filter _ seen) as [|a g'] eqn:Ef; simpl.
      * by destruct (String.eqb (key_of sk) k).
      * destruct (String.eqb (key_of sk) k) eqn:E; [|by rewrite app_nil_r].
        apply String.eqb_eq in E. subst k.
        rewrite Hown, Ef in Eo. done.
    + rewrite map_app, concat_app. simpl. by rewrite Hperm.
    + rewrite !map_app. simpl. rewrite Set_of_snoc, <- Hkeys.
      unfold Set_add.
      assert (existsb (strict_eq (JStr (key_of sk)))
                (map (fun e => JStr (fst e)) acc) = false) as ->; [|done].
      destruct (existsb _ _) eqn:E; [|done].
      by apply key_among in E.
Qed.

Lemma filed_reduce (rows : list skill) (acc groups : list (string * list skill))
    (seen : list skill) :
  filed acc seen → reduce rows acc = Ok groups → filed groups (seen ++ rows).
Proof.
  revert acc seen. induction rows as [|sk rows IH]; intros acc seen Hf; simpl.
  - intros [= <-]. by rewrite app_nil_r.
  - destruct (group_step acc sk) as [acc'|e] eqn:Es; [|done]. simpl.
    intros Hr. rewrite (cons_middle sk seen rows), app_assoc.
    apply (IH acc' (seen ++ [sk])); [|done]. by apply (filed_step acc).
Qed.

(** X19. When the grouping of the skills succeeds, every skill is shown
    exactly once: the groups have distinct categories, none is empty, each
    holds exactly the skills of its category in the order they were
    fetched, and all groups together are a rearrangement of the fetched
    list. *)
Theorem skills_are_partitioned (rows : list skill)
    (groups : list (string * list skill)) :
  groupedSkills {| skills := Arr rows |} = Ok groups →
  NoDup (map fst groups)
  ∧ (∀ k g, In (k, g) groups ↔
            g ≠ [] ∧ g = List.filter (fun sk => String.eqb (key_of sk) k) rows)
  ∧ (∀ sk, In sk rows → ∃ g, In (key_of sk, g) groups ∧ In sk g)
  ∧ concat (map snd groups) ≡ₚ rows.
Proof.
  unfold groupedSkills. simpl. intros Hr.
  destruct (filed_reduce rows [] groups [] filed_nil Hr) as (Hnd & Hown & Hperm & _).
  simpl in *. split_and!; [done | | | done].
  - intros k g. rewrite (own_In k g groups Hnd), Hown.
    destruct (List.filter _ rows) as [|a g'] eqn:Ef.
    + split; [done | by intros [? ->]].
    + split; [by intros [= <-] | by intros [_ ->]].
  - intros sk Hin.
    assert (In sk (List.filter (fun sk' => String.eqb (key_of sk') (key_of sk)) rows))
      as Hin' by (apply filter_In; split; [done | apply String.eqb_refl]).
    eexists. split; [|exact Hin'].
    apply (own_In _ _ groups Hnd). rewrite Hown.
    by destruct (List.filter _ rows).
Qed.

(** Witness of X19: two categories, three skills. *)
Lemma skills_are_partitioned_witness :
  let sk (n : Z) (c : string) :=
    {| id := JNum n; name := JStr "skill"; category_display := JStr c;
       proficiency := JNum 3; proficiency_display := JStr "Advanced" |} in
  let rows := [sk 1 "Frontend"; sk 2 "Backend"; sk 3 "Frontend"] in
  groupedSkills {| skills := Arr rows |}
  = Ok [("Frontend", [sk 1 "Frontend"; sk 3 "Frontend"]);
        ("Backend", [sk 2 "Backend"])]
  ∧ concat [[sk 1 "Frontend"; sk 3 "Frontend"]; [sk 2 "Backend"]] ≡ₚ rows.
Proof.
  intros sk rows. split; [reflexivity|].
  exact (proj2 (proj2 (proj2
           (skills_are_partitioned rows
              [("Frontend", [sk 1 "Frontend"; sk 3 "Frontend"]);
               ("Backend", [sk 2 "Backend"])] eq_refl)))).
Defined.

Lemma own_Some_key (key : string) (g : list skill) (acc : list (string * list skill)) :
  own key acc = Some g → In key (map fst acc).
Proof.
  intros Ho. destruct (in_dec String.string_dec key (map fst acc)) as [|Hn]; [done|].
  apply own_None in Hn. congruence.
Qed.

(** The grouping throws exactly when a category is the name of a property
    of [Object.prototype]. *)
Lemma reduce_outcome (rows : list skill) (acc : list (string * list skill)) :
  (∀ k, In k (map fst acc) → is_inherited k = false) →
  if existsb (fun sk => is_inherited (key_of sk)) rows
  then reduce rows acc = Throw TypeError
  else ∃ groups, reduce rows acc = Ok groups.
Proof.
  revert acc. induction rows as [|sk rows IH]; intros acc Hacc; simpl; [eauto|].
  unfold group_step. fold (key_of sk).
  destruct (is_inherited (key_of sk)) eqn:E; simpl.
  - destruct (own (key_of sk) acc) as [g|] eqn:Eo; [|done].
    apply own_Some_key, Hacc in Eo. congruence.
  - destruct (own (key_of sk) acc) as [g|] eqn:Eo; simpl.
    + apply IH. intros k. rewrite push_keys. apply Hacc.
    + apply IH. intros k. rewrite map_app, in_app_iff. simpl.
      intros [H|[<-|[]]]; [by apply Hacc | done].
Qed.

(** X20. The grouping of a fetched list of skills throws a TypeError
    exactly when the category of some skill, as a property key, is the name
    of a property every object inherits (constructor, toString, __proto__
    and the like): the accumulator finds the inherited value, which is
    truthy and has no [push].  With every other list it succeeds. *)
Theorem grouping_fails_on_inherited_names (rows : list skill) :
  (groupedSkills {| skills := Arr rows |} = Throw TypeError
   ↔ ∃ sk, In sk rows ∧ In (key_of sk) inherited)
  ∧ ((∀ sk, In sk rows → ¬ In (key_of sk) inherited)
     ↔ ∃ groups, groupedSkills {| skills := Arr rows |} = Ok groups).
Proof.
  assert (∀ sk, is_inherited (key_of sk) = true ↔ In (key_of sk) inherited) as Hin.
  { intros sk. unfold is_inherited. rewrite existsb_exists. split.
    - intros (k & Hk & Heq). apply String.eqb_eq in Heq. by subst.
    - intros H. exists (key_of sk). split; [done | apply String.eqb_refl]. }
  unfold groupedSkills. cbn [skills array_of mbind result_bind].
  pose proof (reduce_outcome rows [] (fun k (H : In k []) => match H with end)) as Hout.
  destruct (existsb (fun sk => is_inherited (key_of sk)) rows) eqn:E.
  - apply existsb_exists in E as (sk & Hsk & Hk). apply Hin in Hk.
    rewrite Hout. split; split; try done; eauto.
    + intros Hall. by destruct (Hall sk Hsk).
    + by intros (g & ?).
  - destruct Hout as (g & ->). split; split; try done; eauto.
    + intros (sk & Hsk & Hk). apply Hin in Hk.
      assert (existsb (fun sk => is_inherited (key_of sk)) rows = true)
        by (apply existsb_exists; eauto).
      congruence.
    + intros _ sk Hsk Hk. apply Hin in Hk.
      assert (existsb (fun sk => is_inherited (key_of sk)) rows = true)
        by (apply existsb_exists; eauto).
      congruence.
Qed.

Lemma insert_index_perm (n : Z) (e : string * list skill)
    (sorted : list (Z * (string * list skill))) :
  map snd (insert_index n e sorted) ≡ₚ e :: map snd sorted.
Proof.
  induction sorted as [|[m e'] sorted IH]; simpl; [done|].
  destruct (n <? m); simpl; [done|]. rewrite IH. apply Permutation_swap.
Qed.

Lemma entries_indices_perm (obj : list (string * list skill))
    (sorted : list (Z * (string * list skill))) :
  map snd
    (fold_left
       (fun sorted e =>
          match array_index (fst e) with
          | Some n => insert_index n e sorted
          | None => sorted
          end) obj sorted)
  ≡ₚ map snd sorted
     ++ List.filter (fun e => bool_decide (is_Some (array_index (fst e)))) obj.
Proof.
  revert sorted. induction obj as [|e obj IH]; intros sorted; simpl.
  - by rewrite app_nil_r.
  - rewrite IH. destruct (array_index (fst e)) as [n|]; simpl; [|done].
    rewrite insert_index_perm. simpl. by rewrite Permutation_middle.
Qed.

Lemma filter_split_perm {A} (f : A → bool) (l : list A) :
  List.filter f l ++ List.filter (fun x => negb (f x)) l ≡ₚ l.
Proof.
  induction l as [|a l IH]; simpl; [done|].
  destruct (f a); simpl; [by rewrite IH|].
  by rewrite <- Permutation_middle, IH.
Qed.

(** An array index is the key of one number only. *)
Lemma array_index_key (k : string) (n : Z) :
  array_index k = Some n → k = decimal n.
Proof.
  unfold array_index. destruct k as [|c k]; [done|].
  destruct (number_of (String c k) 0) as [m|]; [|done].
  destruct (m <=? 4294967294); simpl; [|done].
  destruct (String.eqb (decimal m) (String c k)) eqn:E; [|done].
  apply String.eqb_eq in E. by intros [= <-].
Qed.

Lemma index_keys_NoDup (obj : list (string * list skill)) :
  NoDup (map fst obj) → NoDup (omap (fun e => array_index (fst e)) obj).
Proof.
  induction obj as [|e obj IH]; simpl; [constructor|].
  intros Hnd. apply NoDup_cons in Hnd as [Hnotin Hnd].
  destruct (array_index (fst e)) as [n|] eqn:En; [|by apply IH].
  apply NoDup_cons. split; [|by apply IH].
  intros Hin. apply list_elem_of_omap in Hin as (e' & He' & En').
  apply Hnotin. apply list_elem_of_fmap. exists e'. split; [|done].
  apply array_index_key in En, En'. congruence.
Qed.

Lemma insert_index_fst (n : Z) (e : string * list skill)
    (sorted : list (Z * (string * list skill))) :
  map fst (insert_index n e sorted) ≡ₚ n :: map fst sorted.
Proof.
  induction sorted as [|[m e'] sorted IH]; simpl; [done|].
  destruct (n <? m); simpl; [done|]. rewrite IH. apply Permutation_swap.
Qed.

(** Inserting an index that is not there yet keeps the indices strictly
    ascending. *)
Lemma insert_index_sorted (n : Z) (e : string * list skill)
    (sorted : list (Z * (string * list skill))) :
  StronglySorted Z.lt (map fst sorted) →
  n ∉ map fst sorted →
  StronglySorted Z.lt (map fst (insert_index n e sorted)).
Proof.
  induction sorted as [|[m e'] sorted IH]; simpl; intros Hs Hn.
  - repeat constructor.
  - apply StronglySorted_inv in Hs as [Hs Hall].
    apply not_elem_of_cons in Hn as [Hnm Hn].
    destruct (n <? m) eqn:E; simpl.
    + apply Z.ltb_lt in E. constructor; [by constructor|].
      constructor; [done|]. eapply Forall_impl; [exact Hall|].
      simpl. intros; lia.
    + apply Z.ltb_ge in E. constructor; [by apply IH|].
      rewrite insert_index_fst. constructor; [lia | done].
Qed.

Lemma insert_index_tagged (n : Z) (e : string * list skill)
    (sorted : list (Z * (string * list skill))) :
  array_index (fst e) = Some n →
  Forall (fun p => array_index (fst (snd p)) = Some (fst p)) sorted →
  Forall (fun p => array_index (fst (snd p)) = Some (fst p)) (insert_index n e sorted).
Proof.
  intros He. induction sorted as [|[m e'] sorted IH]; simpl; intros Hall.
  - by repeat constructor.
  - apply Forall_cons in Hall as [Hm Hall].
    destruct (n <? m); repeat constructor; auto.
Qed.

(** The index keys collected by [Object.entries] are strictly ascending,
    each filed under its own number. *)
Lemma entries_indices_sorted (obj : list (string * list skill))
    (sorted : list (Z * (string * list skill))) :
  StronglySorted Z.lt (map fst sorted) →
  Forall (fun p => array_index (fst (snd p)) = Some (fst p)) sorted →
  NoDup (map fst sorted ++ omap (fun e => array_index (fst e)) obj) →
  let collected :=
    fold_left
      (fun sorted e =>
         match array_index (fst e) with
         | Some n => insert_index n e sorted
         | None => sorted
         end) obj sorted in
  StronglySorted Z.lt (map fst collected)
  ∧ Forall (fun p => array_index (fst (snd p)) = Some (fst p)) collected.
Proof.
  revert sorted. induction obj as [|e obj IH]; intros sorted Hs Ht Hnd; simpl.
  - done.
  - simpl in Hnd. destruct (array_index (fst e)) as [n|] eqn:En; [|by apply IH].
    apply IH.
    + apply insert_index_sorted; [done|].
      apply NoDup_app in Hnd as (_ & Hdisj & _).
      intros Hin. apply (Hdisj n Hin). by left.
    + by apply insert_index_tagged.
    + rewrite insert_index_fst. simpl.
      by rewrite Permutation_middle.
Qed.

(** X21. The sections of the page are the groups, each once.  The groups
    are created in the order in which their categories first occur in the
    fetched list, and the sections keep that order, unless a category is
    the decimal form of an array index: [Object.entries] lists such keys
    first, by ascending number, and the other keys after them in the order
    of their creation. *)
Theorem sections_follow_first_occurrence (rows : list skill)
    (groups : list (string * list skill)) :
  groupedSkills {| skills := Arr rows |} = Ok groups →
  render {| skills := Arr rows |} = Ok (entries groups)
  ∧ entries groups ≡ₚ groups
  ∧ map (fun e => JStr (fst e)) groups
    = first_seen (map (fun sk => JStr (key_of sk)) rows)
  ∧ (∃ indexed numbers,
       entries groups
       = indexed
         ++ List.filter
              (fun e => negb (bool_decide (is_Some (array_index (fst e))))) groups
       ∧ map (fun e => array_index (fst e)) indexed = map Some numbers
       ∧ StronglySorted Z.lt numbers
       ∧ indexed
         ≡ₚ List.filter
              (fun e => bool_decide (is_Some (array_index (fst e)))) groups)
  ∧ ((∀ sk, In sk rows → array_index (key_of sk) = None) →
     entries groups = groups).
Proof.
  intros Hg. unfold render. rewrite Hg.
  unfold groupedSkills in Hg. simpl in Hg.
  destruct (filed_reduce rows [] groups [] filed_nil Hg) as (Hnd & Hown & _ & Hkeys).
  simpl in Hkeys. rewrite Set_of_first_seen in Hkeys.
  split_and!; [done | | done | |].
  - unfold entries. rewrite entries_indices_perm. simpl. apply filter_split_perm.
  - destruct (entries_indices_sorted groups []) as [Hs Ht];
      [constructor | constructor | by apply index_keys_NoDup |].
    eexists _, _. split_and!; [reflexivity | | exact Hs |].
    + rewrite !map_map. apply map_ext_Forall.
      eapply Forall_impl; [exact Ht|]. by intros [m e'].
    + by rewrite entries_indices_perm.
  - intros Hno.
    assert (∀ e, In e groups → array_index (fst e) = None) as Hnone.
    { intros e He.
      assert (In (JStr (fst e)) (map (fun e => JStr (fst e)) groups)) as Hin
        by (apply in_map_iff; eauto).
      rewrite Hkeys in Hin. apply first_seen_In, in_map_iff in Hin
        as (sk & [= Hsk] & Hrow).
      rewrite <- Hsk. by apply Hno. }
    unfold entries. clear -Hnone.
    assert (∀ acc, fold_left
              (fun sorted e =>
                 match array_index (fst e) with
                 | Some n => insert_index n e sorted
                 | None => sorted
                 end) groups acc = acc) as ->.
    { induction groups as [|e groups IH]; intros acc; simpl; [done|].
      rewrite (Hnone e) by (by left). apply IH.
      intros e' He'. apply Hnone. by right. }
    simpl. induction groups as [|e groups IH]; simpl; [done|].
    rewrite (Hnone e) by (by left). simpl. f_equal.
    apply IH. intros e' He'. apply Hnone. by right.
Qed.

(** Witness of X21: the categories "10" and "2" are array indices and come
    first, in ascending order. *)
Lemma sections_follow_first_occurrence_witness :
  let sk (n : Z) (c : string) :=
    {| id := JNum n; name := JStr "skill"; category_display := JStr c;
       proficiency := JNum 3; proficiency_display := JStr "Advanced" |} in
  let rows := [sk 1 "Frontend"; sk 2 "10"; sk 3 "2"] in
  groupedSkills {| skills := Arr rows |}
  = Ok [("Frontend", [sk 1 "Frontend"]); ("10", [sk 2 "10"]); ("2", [sk 3 "2"])]
  ∧ render {| skills := Arr rows |}
    = Ok [("2", [sk 3 "2"]); ("10", [sk 2 "10"]); ("Frontend", [sk 1 "Frontend"])].
Proof.
  intros sk rows. split; [reflexivity|].
  rewrite (proj1 (sections_follow_first_occurrence rows
                    [("Frontend", [sk 1 "Frontend"]); ("10", [sk 2 "10"]);
                     ("2", [sk 3 "2"])] eq_refl)).
  vm_compute. reflexivity.
Defined.
End AboutGroups.

(** ** Fetching every page of the skills *)

Section AboutPages.
Import About.

Lemma truthy_url_Some (url : option string) (u : string) :
  truthy_url url = Some u → url = Some u.
Proof.
  destruct url as [v|]; simpl; [|done].
  destruct (String.eqb v ""); [done | by intros [= ->]].
Qed.

(** The loop along a chain of pages: it requests each page once and in
    order, and arrives at the last [next] with the skills of all pages. *)
Lemma fetch_pages_walk (net : string → outcome page) (bodies : list page)
    (url stop : option string) (allSkills more : list skill) (fuel : nat)
    (s : state) (l : list effect) :
  walk net url bodies stop →
  walk_skills bodies = Ok more →
  fetch_pages (length bodies + fuel) net url allSkills s l
  = fetch_pages fuel net stop (allSkills ++ more) s
      (l ++ map HttpGet (walk_urls url bodies)).
Proof.
  revert url allSkills more l.
  induction bodies as [|b bodies IH]; intros url allSkills more l; simpl.
  - intros -> [= <-]. by rewrite !app_nil_r.
  - intros (u & Hu & Hnet & Hw). rewrite Hu, Hnet.
    destruct (spread (results b)) as [here|e] eqn:Es; [|done]. simpl.
    destruct (walk_skills bodies) as [rest|e] eqn:Er; [|done]. simpl.
    intros [= <-]. apply truthy_url_Some in Hu as ->.
    unfold and_then at 1. unfold axios_get. run_handler.
    unfold and_then at 1. simpl. unfold and_then at 1. rewrite Es. simpl.
    unfold and_then at 1. simpl.
    rewrite (IH (next b) (allSkills ++ here) rest (l ++ [HttpGet u]) Hw eq_refl).
    by rewrite <- !app_assoc.
Qed.

(** X22. When the pages form a chain that ends with a [next] that is
    [null] or empty, [fetchSkills] requests each page once, in order,
    logs nothing else, and stores the skills of all pages in the order of
    the pages; the fuel needed is the number of pages plus one. *)
Theorem all_pages_are_concatenated (net : string → outcome page)
    (bodies : list page) (stop : option string) (more : list skill)
    (fuel : nat) (s : state) (l : list effect) :
  walk net (Some first_url) bodies stop →
  truthy_url stop = None →
  walk_skills bodies = Ok more →
  fetchSkills (length bodies + S fuel) net s l
  = Some (Ok (), {| skills := Arr more |},
          l ++ map HttpGet (walk_urls (Some first_url) bodies)).
Proof.
  intros Hw Hstop Hmore. unfold fetchSkills, try_catch_O.
  rewrite (fetch_pages_walk net bodies (Some first_url) stop [] more (S fuel) s l
             Hw Hmore).
  simpl. by rewrite Hstop.
Qed.

(** X23. All or nothing: when a page of the chain fails (the request is
    rejected, the data of the response is [null], or its results cannot be
    spread)
    the skills of the pages fetched before it are dropped: the state is
    left as it was, one diagnostic is logged after the requests, and no
    further page is requested. *)
Theorem failed_page_drops_all_skills (net : string → outcome page)
    (bodies : list page) (u : string) (more : list skill) (e : error)
    (fuel : nat) (s : state) (l : list effect) :
  walk net (Some first_url) bodies (Some u) →
  u ≠ "" →
  walk_skills bodies = Ok more →
  page_error (net u) = Some e →
  fetchSkills (length bodies + S fuel) net s l
  = Some (Ok (), s,
          l ++ map HttpGet (walk_urls (Some first_url) bodies)
            ++ [HttpGet u; ConsoleError "Error fetching skills:" e]).
Proof.
  intros Hw Hu Hmore Herr. unfold fetchSkills, try_catch_O.
  rewrite (fetch_pages_walk net bodies (Some first_url) (Some u) [] more (S fuel) s l
             Hw Hmore).
  simpl. rewrite (proj2 (String.eqb_neq u "") Hu).
  unfold page_error in Herr. unfold and_then at 1. unfold axios_get. run_handler.
  destruct (net u) as [e'|[b|]].
  - injection Herr as ->. simpl. by rewrite <- !app_assoc.
  - simpl. unfold and_then at 1. simpl. unfold and_then at 1.
    destruct (spread (results b)) as [here|e']; [done|].
    injection Herr as ->. simpl. by rewrite <- !app_assoc.
  - injection Herr as <-. cbv [and_then]. simpl.
    by rewrite <- !app_assoc.
Qed.

(** X24. A page whose [next] is its own URL keeps the loop going for
    ever: whatever the fuel, [fetchSkills] has not returned, so that the
    skills are never stored and nothing is ever shown. *)
Theorem cyclic_next_never_returns (net : string → outcome page) (b : page)
    (here : list skill) (fuel : nat) (s : state) (l : list effect) :
  net first_url = Resolved (Some b) →
  next b = Some first_url →
  spread (results b) = Ok here →
  fetchSkills fuel net s l = None.
Proof.
  intros Hnet Hnext Hsp. unfold fetchSkills, try_catch_O.
  assert (∀ all l', fetch_pages fuel net (Some first_url) all s l' = None) as ->;
    [|done].
  induction fuel as [|fuel IH]; intros all l'; [done|].
  simpl. rewrite Hnet. unfold and_then at 1. unfold axios_get. run_handler.
  simpl. unfold and_then at 1. simpl. unfold and_then at 1. rewrite Hsp. simpl.
  unfold and_then at 1. simpl. rewrite Hnext. apply IH.
Qed.
End AboutPages.

(** Witness of X22: two pages of skills. *)
Lemma all_pages_are_concatenated_witness :
  About.walk AboutSamples.two_pages (Some About.first_url)
    [AboutSamples.page1; AboutSamples.page2] None
  ∧ About.fetchSkills 3 AboutSamples.two_pages About.init []
    = Some (Ok (),
            {| About.skills :=
                 Arr [AboutSamples.sk 1 "Frontend"; AboutSamples.sk 2 "Backend";
                      AboutSamples.sk 3 "Frontend"] |},
            [HttpGet About.first_url; HttpGet AboutSamples.second_url]).
Proof.
  assert (About.walk AboutSamples.two_pages (Some About.first_url)
            [AboutSamples.page1; AboutSamples.page2] None) as Hw.
  { exists About.first_url. split_and!; [reflexivity | reflexivity |].
    exists AboutSamples.second_url. split_and!; reflexivity. }
  split; [exact Hw|].
  exact (all_pages_are_concatenated AboutSamples.two_pages
           [AboutSamples.page1; AboutSamples.page2] None _ 0 About.init []
           Hw eq_refl eq_refl).
Defined.

(** Witness of X23: the second page is rejected, and the two skills of the
    first page are not stored. *)
Lemma failed_page_drops_all_skills_witness :
  About.walk AboutSamples.second_missing (Some About.first_url)
    [AboutSamples.page1] (Some AboutSamples.second_url)
  ∧ About.fetchSkills 2 AboutSamples.second_missing About.init []
    = Some (Ok (), About.init,
            [HttpGet About.first_url; HttpGet AboutSamples.second_url;
             ConsoleError "Error fetching skills:" (NetworkError "Not Found")]).
Proof.
  assert (About.walk AboutSamples.second_missing (Some About.first_url)
            [AboutSamples.page1] (Some AboutSamples.second_url)) as Hw.
  { exists About.first_url. split_and!; reflexivity. }
  split; [exact Hw|].
  exact (failed_page_drops_all_skills AboutSamples.second_missing
           [AboutSamples.page1] AboutSamples.second_url _ _ 0 About.init []
           Hw ltac:(discriminate) eq_refl eq_refl).
Defined.

(** Witness of X24: the first page names itself as the next one. *)
Lemma cyclic_next_never_returns_witness :
  AboutSamples.looping About.first_url = Resolved (Some AboutSamples.page_loop)
  ∧ About.fetchSkills 1000 AboutSamples.looping About.init [] = None.
Proof.
  split; [reflexivity|].
  exact (cyclic_next_never_returns AboutSamples.looping AboutSamples.page_loop
           _ 1000 About.init [] eq_refl eq_refl eq_refl).
Defined.
